(** * NFL sacks dashboard: loader, filter engine and chart builders

    A shallow embedding of [core/data.py], [core/plots.py] and of the
    filtering script in [__main__.py], with the properties of the
    specification stated on it.

    Conventions.
    - A pandas [DataFrame] whose columns are fixed (everything after
      [load_data]) is a list of [GameRecord]s in row order; a [Series] is
      the list of one column's cells in the same order.  The loader, which
      tests for the presence of columns and adds columns, works on a
      [Frame]: a finite map from column names to columns.
    - Python [int] is [Z]; a pandas float is an exact rational [Q]
      (rounding is not modelled); [str] is [string], read as the UTF-8
      bytes of the text.
    - A call that can raise returns a [Result]: [Ok] with its value or
      [Raise] with the exception. *)

From Stdlib Require Import ZArith QArith Ascii String List Permutation Sorted Lia Bool.
From stdpp Require Import base option list sorting gmap strings.

Close Scope Q_scope.
Open Scope Z_scope.
Open Scope string_scope.
Open Scope list_scope.

(* ================================================================== *)
(** * Data model *)
(* ================================================================== *)

(** A calendar date as parsed by [parse_dates]. *)
Record Date := mkDate { d_year : Z; d_month : Z; d_day : Z }.

(** One row of the table: a team-game observation. *)
Record GameRecord := mkGame {
  season : Z;
  week : Z;
  phase : string;
  team_abbr : string;
  partido_id : string;
  local_team_name : string;
  visitante_team_name : string;
  fecha : Date;
  is_home : bool;
  loc_vi : string;
  resultado : string;
  sacks_permitidos : Z;
  pct_sacks : Q;
  puntos_anotados : Z;
  margin : Z
}.

Definition Table := list GameRecord.
Definition Series (A : Type) := list A.

(* ================================================================== *)
(** * Calls that can raise *)
(* ================================================================== *)

Inductive Exn :=
| FileNotFoundError (path : string)
| ValueError (msg : string)
| KeyError (key : string)
| AttributeError (msg : string)
| IndexError.

Inductive Result (A : Type) :=
| Ok (a : A)
| Raise (e : Exn).
Arguments Ok {A} a.
Arguments Raise {A} e.

#[global] Instance Result_ret : MRet Result := fun A a => Ok a.
#[global] Instance Result_bind : MBind Result :=
  fun A B f r => match r with Ok a => f a | Raise e => Raise e end.

(* ================================================================== *)
(** * The pandas operations the script uses *)
(* ================================================================== *)

Module Pandas.

(** [df[name]]: one column as a series. *)
Definition col {A} (f : GameRecord -> A) (df : Table) : Series A :=
  List.map f df.

(** [s == v] on an integer column. *)
Definition eq_int (s : Series Z) (v : Z) : Series bool :=
  List.map (fun x => Z.eqb x v) s.

(** [s == v] on a string column. *)
Definition eq_str (s : Series string) (v : string) : Series bool :=
  List.map (fun x => String.eqb x v) s.

(** [s >= v]. *)
Definition ge_int (s : Series Z) (v : Z) : Series bool :=
  List.map (fun x => Z.leb v x) s.

(** [s.isin(values)]: cell by cell membership. *)
Definition isin (s : Series string) (values : list string) : Series bool :=
  List.map (fun x => existsb (String.eqb x) values) s.

(** [a & b] on boolean series over the same index. *)
Fixpoint band (a b : Series bool) : Series bool :=
  match a, b with
  | x :: a', y :: b' => (x && y) :: band a' b'
  | _, _ => []
  end.

(** [df[mask]]: the rows whose mask cell is [True], in row order.  The
    masks of the script are computed from [df] itself and so have its
    length ([mask_length] below). *)
Fixpoint boolean_index {A} (df : list A) (mask : Series bool) : list A :=
  match df, mask with
  | r :: df', b :: mask' =>
      if b then r :: boolean_index df' mask' else boolean_index df' mask'
  | _, _ => []
  end.

(** [s.unique()]: the distinct values in order of first appearance. *)
Fixpoint unique_from (seen : list string) (s : Series string) : list string :=
  match s with
  | [] => []
  | x :: s' =>
      if existsb (String.eqb x) seen then unique_from seen s'
      else x :: unique_from (x :: seen) s'
  end.

Definition unique (s : Series string) : list string := unique_from [] s.

(** [df.head(n)]. *)
Definition head {A} (n : nat) (df : list A) : list A := firstn n df.

(** [df.empty]. *)
Definition empty {A} (df : list A) : bool :=
  match df with [] => true | _ => false end.

End Pandas.

(** Python's [sorted] on strings: ascending by code point, which on UTF-8
    text is the byte order of [String.leb]. *)
Definition str_le (a b : string) : Prop := String.leb a b = true.

#[local] Instance str_le_dec : RelDecision str_le.
Proof. intros a b. unfold str_le. solve_decision. Defined.

Definition sorted (l : list string) : list string := merge_sort str_le l.

(* ================================================================== *)
(** * Filter engine ([__main__.py], lines 34 to 65) *)
(* ================================================================== *)

(** The values of the sidebar widgets. *)
Record Criteria := mkCriteria {
  c_season : Z;                 (* selectbox "Temporada" *)
  c_phase_sel : list string;    (* multiselect "Fase" *)
  c_all_teams : bool;           (* checkbox "Todos los equipos" *)
  c_teams : list string;        (* multiselect "Equipos" *)
  c_resultado : string;         (* radio "Resultado" *)
  c_min_sacks : Z               (* slider *)
}.

(** Lines 41 to 45. *)
Definition team_sel (df_raw : Table) (C : Criteria) : list string :=
  if c_all_teams C then sorted (Pandas.unique (Pandas.col team_abbr df_raw))
  else c_teams C.

(** Lines 58 to 63.  An empty [team_sel] is falsy, and the column itself
    takes its place. *)
Definition mask (df_raw : Table) (C : Criteria) : Series bool :=
  let team_sel := team_sel df_raw C in
  Pandas.band
    (Pandas.band
       (Pandas.band
          (Pandas.eq_int (Pandas.col season df_raw) (c_season C))
          (Pandas.isin (Pandas.col phase df_raw) (c_phase_sel C)))
       (Pandas.isin (Pandas.col team_abbr df_raw)
          (match team_sel with
           | [] => Pandas.col team_abbr df_raw
           | _ => team_sel
           end)))
    (Pandas.ge_int (Pandas.col sacks_permitidos df_raw) (c_min_sacks C)).

(** Line 64. *)
Definition df_f (df_raw : Table) (C : Criteria) : Table :=
  Pandas.boolean_index df_raw (mask df_raw C).

(** Line 65. *)
Definition df_o (df_f : Table) (resultado_sel : string) : Table :=
  if String.eqb resultado_sel "all" then df_f
  else Pandas.boolean_index df_f
         (Pandas.eq_str (Pandas.col resultado df_f) resultado_sel).

(* ================================================================== *)
(** * Specification vocabulary *)
(* ================================================================== *)

(** [Selects P l l'] : [l'] is [l] with exactly the elements that satisfy
    [P] kept, each at its place. *)
Inductive Selects {A} (P : A -> Prop) : list A -> list A -> Prop :=
| Selects_nil : Selects P [] []
| Selects_keep x l l' : P x -> Selects P l l' -> Selects P (x :: l) (x :: l')
| Selects_drop x l l' : ~ P x -> Selects P l l' -> Selects P (x :: l) l'.

(** The four predicates of the first stage as the code applies them. *)
Definition passes (C : Criteria) (r : GameRecord) : Prop :=
  season r = c_season C
  /\ phase r ∈ c_phase_sel C
  /\ (c_all_teams C = true \/ c_teams C = [] \/ team_abbr r ∈ c_teams C)
  /\ c_min_sacks C <= sacks_permitidos r.

(** The four predicates with the team predicate bypassed by the all-teams
    flag only. *)
Definition passes_flag_only (C : Criteria) (r : GameRecord) : Prop :=
  season r = c_season C
  /\ phase r ∈ c_phase_sel C
  /\ (c_all_teams C = true \/ team_abbr r ∈ c_teams C)
  /\ c_min_sacks C <= sacks_permitidos r.

(** The three predicates that remain when the team predicate is bypassed. *)
Definition passes_but_team (C : Criteria) (r : GameRecord) : Prop :=
  season r = c_season C
  /\ phase r ∈ c_phase_sel C
  /\ c_min_sacks C <= sacks_permitidos r.


(** The values the team column is tested against on line 61. *)
Definition effective_teams (df_raw : Table) (C : Criteria) : list string :=
  match team_sel df_raw C with
  | [] => Pandas.col team_abbr df_raw
  | _ => team_sel df_raw C
  end.

(** One cell of [mask]. *)
Definition row_mask (teams : list string) (C : Criteria) (r : GameRecord) : bool :=
  (season r =? c_season C)%Z
  && existsb (String.eqb (phase r)) (c_phase_sel C)
  && existsb (String.eqb (team_abbr r)) teams
  && (c_min_sacks C <=? sacks_permitidos r)%Z.

(** The criteria with the all-teams box ticked. *)
Definition with_all_teams (C : Criteria) : Criteria :=
  {| c_season := c_season C; c_phase_sel := c_phase_sel C;
     c_all_teams := true; c_teams := c_teams C;
     c_resultado := c_resultado C; c_min_sacks := c_min_sacks C |}.

(** Sample rows and criteria. *)
Definition sample_game (team res : string) (sacks : Z) : GameRecord :=
  {| season := 2023; week := 36; phase := "regular"; team_abbr := team;
     partido_id := "2023_01_DET_KC"; local_team_name := "Chiefs";
     visitante_team_name := "Lions"; fecha := mkDate 2023 9 7;
     is_home := true; loc_vi := "Casa"; resultado := res;
     sacks_permitidos := sacks; pct_sacks := (5 # 100)%Q;
     puntos_anotados := 20; margin := if String.eqb res "win" then 9 else -9 |}.

Definition sample_table : Table :=
  [ sample_game "KC" "loss" 3; sample_game "DET" "win" 1;
    sample_game "BUF" "loss" 5; sample_game "KC" "win" 0 ].

Definition sample_criteria : Criteria :=
  {| c_season := 2023; c_phase_sel := ["playoff"; "regular"];
     c_all_teams := true; c_teams := []; c_resultado := "all";
     c_min_sacks := 1 |}.

(** No team chosen, all-teams box not ticked. *)
Definition no_team_criteria : Criteria :=
  {| c_season := 2023; c_phase_sel := ["playoff"; "regular"];
     c_all_teams := false; c_teams := []; c_resultado := "all";
     c_min_sacks := 1 |}.

(** No phase chosen. *)
Definition no_phase_criteria : Criteria :=
  {| c_season := 2023; c_phase_sel := [];
     c_all_teams := true; c_teams := []; c_resultado := "all";
     c_min_sacks := 0 |}.

(* ================================================================== *)
(** * Sorting by value *)
(* ================================================================== *)

(** [sort_values(ascending=False)].  pandas sorts with numpy's quicksort
    unless told otherwise, which is not stable: what the library promises,
    and all that the dashboard relies on, is that the result is a
    rearrangement of the rows in descending order of the key. *)
Class SortValues := {
  sort_values_desc : forall {A : Type}, (A -> Q) -> list A -> list A;
  sort_values_desc_perm :
    forall (A : Type) (key : A -> Q) (l : list A),
      Permutation (sort_values_desc key l) l;
  sort_values_desc_sorted :
    forall (A : Type) (key : A -> Q) (l : list A),
      StronglySorted (fun x y => (key y <= key x)%Q) (sort_values_desc key l)
}.

(** One implementation of the contract: merge sort. *)
Definition key_ge {A} (key : A -> Q) (x y : A) : Prop := (key y <= key x)%Q.

#[local] Instance key_ge_dec {A} (key : A -> Q) : RelDecision (key_ge key).
Proof. intros x y. unfold key_ge, Qle. solve_decision. Defined.

Definition merge_sort_desc {A} (key : A -> Q) (l : list A) : list A :=
  merge_sort (key_ge key) l.

(* ================================================================== *)
(** * Chart builders ([core/plots.py]) *)
(* ================================================================== *)

Module Plots.

(** What [px.bar] is given: one bar per row of [avg], in row order. *)
Record BarFigure := mkBar {
  bars : list (string * Q);
  bar_color : string;
  bar_x_label : string;
  bar_y_label : string;
  bar_title : string
}.

(** Lines 9 to 15. *)
Definition PALETTE_primary : string := "#1B6EF3".
Definition PALETTE_secondary : string := "#FF9803".
Definition PALETTE_accent : string := "#1CC29F".
Definition PALETTE_danger : string := "#E02945".
Definition PALETTE_neutral : string := "#9E9E9E".

Fixpoint sum (s : Series Z) : Z :=
  match s with
  | [] => 0
  | x :: s' => x + sum s'
  end.

(** [Series.mean] of a group; a group of [groupby] is never empty. *)
Definition mean (s : Series Z) : Q :=
  Qred (inject_Z (sum s) / inject_Z (Z.of_nat (List.length s))).

(** The rows of one group, in row order. *)
Definition group (df : Table) (k : string) : Table :=
  List.filter (fun r => String.eqb (team_abbr r) k) df.

(** [df.groupby("team_abbr")["sacks_permitidos"].mean()]: one entry per
    distinct key, keys in ascending order ([sort=True]). *)
Definition groupby_team_mean_sacks (df : Table) : list (string * Q) :=
  List.map (fun k => (k, mean (Pandas.col sacks_permitidos (group df k))))
    (sorted (Pandas.unique (Pandas.col team_abbr df))).

Section WithSort.
Context {SV : SortValues}.

(** Lines 18 to 41. *)
Definition bar_avg_sacks_losses (df : Table) : BarFigure :=
  let loss_df :=
    Pandas.boolean_index df (Pandas.eq_str (Pandas.col resultado df) "loss") in
  let avg := sort_values_desc snd (groupby_team_mean_sacks loss_df) in
  {| bars := avg;
     bar_color := PALETTE_danger;
     bar_x_label := "Equipo";
     bar_y_label := "Sacks promedio";
     bar_title := "Sacks promedio en derrotas" |}.
End WithSort.

(** ** The builders that hand their table to plotly

    Each returns what it gives [px.scatter] or [px.box]: the table and the
    keyword arguments. *)

(** [str.replace("_", " ")] and [str.title()] on ASCII text. *)
Definition is_upper (a : ascii) : bool :=
  let n := nat_of_ascii a in ((65 <=? n) && (n <=? 90))%nat.
Definition is_lower (a : ascii) : bool :=
  let n := nat_of_ascii a in ((97 <=? n) && (n <=? 122))%nat.
Definition to_upper (a : ascii) : ascii :=
  if is_lower a then ascii_of_nat (nat_of_ascii a - 32) else a.
Definition to_lower (a : ascii) : ascii :=
  if is_upper a then ascii_of_nat (nat_of_ascii a + 32) else a.

Fixpoint replace_underscores (s : string) : string :=
  match s with
  | EmptyString => EmptyString
  | String a s' =>
      String (if Ascii.eqb a "_"%char then " "%char else a) (replace_underscores s')
  end.

Fixpoint title_from (in_word : bool) (s : string) : string :=
  match s with
  | EmptyString => EmptyString
  | String a s' =>
      if is_upper a || is_lower a
      then String (if in_word then to_lower a else to_upper a) (title_from true s')
      else String a (title_from false s')
  end.

Definition str_title (s : string) : string := title_from false s.

(** The [**color_args] of [scatter_sacks_vs_points]. *)
Inductive ColorArgs :=
| color_discrete_sequence (palette : string)
| color_discrete_map (colors : list (string * string)).

Record ScatterFigure := mkScatter {
  sc_data_frame : Table;
  sc_x : string;
  sc_y : string;
  sc_color : string;
  sc_symbol : string;
  sc_color_args : ColorArgs;
  sc_trendline : string;
  sc_trendline_scope : string;
  sc_labels : list (string * string);
  sc_hover_data : list string;
  sc_title : string;
  sc_hlines : list (Z * string * string)   (* y, line_dash, line_color *)
}.

Record BoxFigure := mkBox {
  bx_data_frame : Table;
  bx_x : string;
  bx_y : string;
  bx_color : string;
  bx_color_discrete_map : list (string * string);
  bx_title : string;
  bx_labels : list (string * string)
}.

(** Lines 44 to 79.  The script calls it on a table with rows only
    (the guard of line 80). *)
Definition scatter_sacks_vs_points (df : Table) (color_col symbol_col : string)
    (color_args : ColorArgs) (trend_scope : string) : ScatterFigure :=
  {| sc_data_frame := df;
     sc_x := "sacks_permitidos";
     sc_y := "puntos_anotados";
     sc_color := color_col;
     sc_symbol := symbol_col;
     sc_color_args := color_args;
     sc_trendline := "ols";
     sc_trendline_scope := trend_scope;
     sc_labels :=
       [("sacks_permitidos", "Sacks recibidos");
        ("puntos_anotados", "Puntos anotados");
        (color_col, str_title (replace_underscores color_col))];
     sc_hover_data := ["partido_id"; "week"; "phase"; "resultado"];
     sc_title := "Sacks vs Puntos anotados";
     sc_hlines := [] |}.

(** Lines 82 to 110. *)
Definition box_sacks_distribution (df : Table) (group_by_team : bool) : BoxFigure :=
  if group_by_team then
    {| bx_data_frame := df;
       bx_x := "team_abbr";
       bx_y := "sacks_permitidos";
       bx_color := "resultado";
       bx_color_discrete_map := [("win", PALETTE_accent); ("loss", PALETTE_danger)];
       bx_title := "Sacks por equipo y resultado";
       bx_labels := [("team_abbr", "Equipo"); ("sacks_permitidos", "Sacks recibidos")] |}
  else
    {| bx_data_frame := df;
       bx_x := "resultado";
       bx_y := "sacks_permitidos";
       bx_color := "resultado";
       bx_color_discrete_map := [("win", PALETTE_accent); ("loss", PALETTE_danger)];
       bx_title := "Sacks en victorias vs derrotas";
       bx_labels := [("resultado", "Resultado"); ("sacks_permitidos", "Sacks recibidos")] |}.

(** Lines 146 to 171.  [px.scatter] with [trendline="ols"] and
    [trendline_scope="overall"] raises [IndexError] on a table without
    rows (it has no trace to attach the overall trend line to), before
    [add_hline] is reached. *)
Definition scatter_sacks_vs_margin (df : Table) : Result ScatterFigure :=
  let colors := [("win", PALETTE_accent); ("loss", PALETTE_danger)] in
  if Pandas.empty df then Raise IndexError else
  let fig :=
    {| sc_data_frame := df;
       sc_x := "sacks_permitidos";
       sc_y := "margin";
       sc_color := "resultado";
       sc_symbol := "resultado";
       sc_color_args := color_discrete_map colors;
       sc_trendline := "ols";
       sc_trendline_scope := "overall";
       sc_labels :=
         [("sacks_permitidos", "Sacks permitidos");
          ("margin", "Margen (+ gana / – pierde)")];
       sc_hover_data := ["partido_id"; "week"; "team_abbr"];
       sc_title := "Sacks permitidos vs margen (≥ 8 pts)";
       sc_hlines := [] |} in
  Ok {| sc_data_frame := sc_data_frame fig; sc_x := sc_x fig; sc_y := sc_y fig;
        sc_color := sc_color fig; sc_symbol := sc_symbol fig;
        sc_color_args := sc_color_args fig; sc_trendline := sc_trendline fig;
        sc_trendline_scope := sc_trendline_scope fig; sc_labels := sc_labels fig;
        sc_hover_data := sc_hover_data fig; sc_title := sc_title fig;
        sc_hlines := sc_hlines fig ++ [(0, "dot", PALETTE_neutral)] |}.

End Plots.

(* ================================================================== *)
(** * Top-10 table ([__main__.py], lines 119 to 132) *)
(* ================================================================== *)

(** The six columns shown. *)
Record Top10Row := mkTop10Row {
  t_season : Z;
  t_week : Z;
  t_partido_id : string;
  t_local_team_name : string;
  t_visitante_team_name : string;
  t_sacks_permitidos : Z
}.

Definition top10_columns (r : GameRecord) : Top10Row :=
  {| t_season := season r; t_week := week r; t_partido_id := partido_id r;
     t_local_team_name := local_team_name r;
     t_visitante_team_name := visitante_team_name r;
     t_sacks_permitidos := sacks_permitidos r |}.

(** A displayed row shows a game: its six cells are the game's. *)
Definition shows (d : Top10Row) (r : GameRecord) : Prop :=
  t_season d = season r
  /\ t_week d = week r
  /\ t_partido_id d = partido_id r
  /\ t_local_team_name d = local_team_name r
  /\ t_visitante_team_name d = visitante_team_name r
  /\ t_sacks_permitidos d = sacks_permitidos r.

Section Top10.
Context {SV : SortValues}.

(** Line 119. *)
Definition top10 (df_f : Table) : Table :=
  Pandas.head 10 (sort_values_desc (fun r => inject_Z (sacks_permitidos r)) df_f).

(** Lines 120 to 132: what [st.dataframe] is given. *)
Definition top10_table (df_f : Table) : list Top10Row :=
  List.map top10_columns (top10 df_f).
End Top10.

(** The number of rows of [T] that allowed strictly more sacks than [r]. *)
Definition rank (T : Table) (r : GameRecord) : nat :=
  List.length (List.filter (fun r' => sacks_permitidos r <? sacks_permitidos r')%Z T).

(** The true top 10: the rows that fewer than 10 rows beat. *)
Definition true_top10 (T : Table) : Table :=
  List.filter (fun r => (rank T r <? 10)%nat) T.

(** The rows of the bar-chart example. *)
Definition bar_example : Table :=
  [ sample_game "A" "loss" 2; sample_game "A" "loss" 4; sample_game "B" "win" 9 ].

(** Fifteen rows with distinct sacks. *)
Definition fifteen_games : Table :=
  List.map (fun s => sample_game "KC" "loss" s)
    [7; 3; 12; 0; 9; 14; 1; 5; 11; 2; 8; 13; 4; 10; 6].

#[local] Instance key_ge_total {A} (key : A -> Q) : Total (key_ge key).
Proof.
  intros x y. unfold key_ge.
  destruct (Qlt_le_dec (key x) (key y)) as [Hlt|Hle]; [right | left]; auto.
  now apply Qlt_le_weak.
Qed.

#[local] Instance key_ge_trans {A} (key : A -> Q) : Transitive (key_ge key).
Proof. intros x y z Hxy Hyz. unfold key_ge in *. eapply Qle_trans; eauto. Qed.

(** Merge sort meets the contract of [sort_values]. *)
#[local] Instance merge_sort_values : SortValues.
Proof.
  refine {| sort_values_desc := @merge_sort_desc |}.
  - intros A key l. apply merge_sort_Permutation.
  - intros A key l. apply (StronglySorted_merge_sort (key_ge key)).
Defined.

(** The loss rows of one team, in row order. *)
Definition loss_rows_of (df : Table) (t : string) : Table :=
  List.filter (fun r => String.eqb (resultado r) "loss" && String.eqb (team_abbr r) t) df.

(* ================================================================== *)
(** * Correlation heatmap ([core/plots.py], lines 113 to 143) *)
(* ================================================================== *)

Module Heatmap.

Inductive Method := pearson | spearman | kendall.

(** [method.title()] on the three names of the radio button. *)
Definition title_of (m : Method) : string :=
  match m with
  | pearson => "Pearson"
  | spearman => "Spearman"
  | kendall => "Kendall"
  end.

(** A square table of floats; [None] is NaN. *)
Definition Matrix := list (list (option Q)).

(** The two library calls of the builder, whose code is not the
    dashboard's: [df[numeric_cols].corr(method=method, numeric_only=True)]
    and [sch.dendrogram(sch.linkage(corr, method="average"),
    no_plot=True)["leaves"]], which raises on a matrix with NaN. *)
Record StatsLib := mkStatsLib {
  corr : Table -> list string -> Method -> Matrix;
  dendrogram_leaves : Matrix -> Result (list nat)
}.

(** [l[i] for i in order]; a position out of range raises. *)
Fixpoint take_positions {A} (order : list nat) (l : list A) : Result (list A) :=
  match order with
  | [] => Ok []
  | i :: order' =>
      match nth_error l i with
      | None => Raise IndexError
      | Some x => rest ← take_positions order' l; mret (x :: rest)
      end
  end.

Fixpoint each_row {A B} (f : A -> Result B) (m : list A) : Result (list B) :=
  match m with
  | [] => Ok []
  | row :: m' => row' ← f row; rest ← each_row f m'; mret (row' :: rest)
  end.

(** [corr.iloc[order, order]]. *)
Definition iloc (m : Matrix) (order : list nat) : Result Matrix :=
  rows ← take_positions order m;
  each_row (take_positions order) rows.

(** [np.ones_like(corr, dtype=bool)]. *)
Definition ones_like (m : Matrix) : list (list bool) :=
  List.map (List.map (fun _ => true)) m.

(** [np.triu]: the cells below the diagonal are cleared. *)
Fixpoint triu_row (i j : nat) (row : list bool) : list bool :=
  match row with
  | [] => []
  | b :: row' => (if (j <? i)%nat then false else b) :: triu_row i (S j) row'
  end.

Fixpoint triu_from (i : nat) (m : list (list bool)) : list (list bool) :=
  match m with
  | [] => []
  | row :: m' => triu_row i 0 row :: triu_from (S i) m'
  end.

Definition triu (m : list (list bool)) : list (list bool) := triu_from 0 m.

(** [DataFrame.mask(cond)]: NaN where [cond] is [True]. *)
Fixpoint mask_row (row : list (option Q)) (cond : list bool) : list (option Q) :=
  match row, cond with
  | v :: row', c :: cond' => (if c then None else v) :: mask_row row' cond'
  | _, _ => []
  end.

Fixpoint df_mask (m : Matrix) (cond : list (list bool)) : Matrix :=
  match m, cond with
  | row :: m', c :: cond' => mask_row row c :: df_mask m' cond'
  | _, _ => []
  end.

(** What [px.imshow] is given. *)
Record Figure := mkFigure {
  z : Matrix;
  zmin : Z;
  zmax : Z;
  text_auto : string;
  origin : string;
  color_continuous_scale : list (Q * string);
  title : string
}.

(** Lines 113 to 143. *)
Definition corr_heatmap (L : StatsLib) (df : Table) (numeric_cols : list string)
    (method : Method) : Result Figure :=
  let corr0 := corr L df numeric_cols method in
  corr1 ←
    (if (2 <? List.length numeric_cols)%nat then
       order ← dendrogram_leaves L corr0;
       iloc corr0 order
     else mret corr0);
  let mask := triu (ones_like corr1) in
  mret {| z := df_mask corr1 mask;
          zmin := -1;
          zmax := 1;
          text_auto := ".2f";
          origin := "lower";
          color_continuous_scale :=
            [(0%Q, Plots.PALETTE_danger); ((1 # 2)%Q, "#202020");
             (1%Q, Plots.PALETTE_accent)];
          title := "Correlaciones (" ++ title_of method ++ ")" |}.

(** The value shown in cell (i, j) of a figure's matrix, if any. *)
Definition displayed (m : Matrix) (i j : nat) : option Q :=
  match nth_error m i with
  | Some row => match nth_error row j with Some v => v | None => None end
  | None => None
  end.

(** [m] has [n] rows of [n] cells. *)
Definition square (n : nat) (m : Matrix) : Prop :=
  List.length m = n /\ Forall (fun row => List.length row = n) m.

(** Every number of [m] lies in [-1, 1]. *)
Definition in_unit_range (m : Matrix) : Prop :=
  Forall (Forall (fun c => match c with
                           | Some v => (-1 <= v /\ v <= 1)%Q
                           | None => True
                           end)) m.

(** A correlation matrix of four columns and a leaf order, as the
    library could return them. *)
Definition sample_corr : Matrix :=
  [ [Some 1%Q; Some (58 # 100)%Q; Some (-41 # 100)%Q; Some (-37 # 100)%Q];
    [Some (58 # 100)%Q; Some 1%Q; Some (-22 # 100)%Q; Some (-30 # 100)%Q];
    [Some (-41 # 100)%Q; Some (-22 # 100)%Q; Some 1%Q; Some (81 # 100)%Q];
    [Some (-37 # 100)%Q; Some (-30 # 100)%Q; Some (81 # 100)%Q; Some 1%Q] ].

Definition sample_lib : StatsLib :=
  {| corr := fun _ _ _ => sample_corr;
     dendrogram_leaves := fun _ => Ok [2; 3; 0; 1]%nat |}.

Definition num_cols : list string :=
  ["sacks_permitidos"; "pct_sacks"; "margin"; "puntos_anotados"].

End Heatmap.

(* ================================================================== *)
(** * Data loader ([core/data.py]) *)
(* ================================================================== *)

(** ** ISO 8601 week of a date

    [Series.dt.isocalendar().week], computed as Python's
    [date.isocalendar] computes it, on the proleptic Gregorian ordinal of
    the date. *)
Module IsoCalendar.

Definition is_leap (y : Z) : bool :=
  (y mod 4 =? 0)%Z && (negb (y mod 100 =? 0)%Z || (y mod 400 =? 0)%Z).

Definition days_before_year (y : Z) : Z :=
  let y1 := y - 1 in
  y1 * 365 + y1 / 4 - y1 / 100 + y1 / 400.

Definition DAYS_BEFORE_MONTH : list Z :=
  [0; 31; 59; 90; 120; 151; 181; 212; 243; 273; 304; 334].

Definition days_before_month (y m : Z) : Z :=
  nth (Z.to_nat (m - 1)) DAYS_BEFORE_MONTH 0
  + (if (2 <? m)%Z && is_leap y then 1 else 0).

Definition ymd2ord (y m d : Z) : Z :=
  days_before_year y + days_before_month y m + d.

(** The ordinal of the Monday that starts ISO week 1 of [year]. *)
Definition isoweek1monday (year : Z) : Z :=
  let firstday := ymd2ord year 1 1 in
  let firstweekday := (firstday + 6) mod 7 in
  let week1monday := firstday - firstweekday in
  if (3 <? firstweekday)%Z then week1monday + 7 else week1monday.

Definition week (d : Date) : Z :=
  let year := d_year d in
  let today := ymd2ord year (d_month d) (d_day d) in
  let w := (today - isoweek1monday year) / 7 in
  if (w <? 0)%Z then (today - isoweek1monday (year - 1)) / 7 + 1
  else if (52 <=? w)%Z && (isoweek1monday (year + 1) <=? today)%Z then 1
  else w + 1.

End IsoCalendar.

Module Data.

(** A cell of a column read from the file: pandas holds integers,
    floats, strings, booleans, dates, and the missing value. *)
Inductive Cell :=
| VInt (n : Z)
| VFloat (q : Q)
| VStr (s : string)
| VBool (b : bool)
| VDate (d : Date)
| VNA.

#[global] Instance Date_eq_dec : EqDecision Date.
Proof. solve_decision. Defined.
#[global] Instance Q_eq_dec : EqDecision Q.
Proof. solve_decision. Defined.
#[global] Instance Cell_eq_dec : EqDecision Cell.
Proof. solve_decision. Defined.

(** A frame whose set of columns is not fixed: column name to column.
    (The order of the columns plays no part in the loader.) *)
Abbreviation Frame := (gmap string (list Cell)).

(** The files of the machine: path to the table that parsing the file
    gives, with the cells of a date column that parsed as [VDate]. *)
Abbreviation Files := (gmap string Frame).

(** [pd.read_csv(path, parse_dates=cols)]: raises when there is no such
    file and when a column of [parse_dates] is not in the file. *)
Definition read_csv (fs : Files) (path : string) (parse_dates : list string)
    : Result Frame :=
  match fs !! path with
  | None => Raise (FileNotFoundError path)
  | Some df =>
      match List.find (fun c => bool_decide (df !! c = None)) parse_dates with
      | Some c => Raise (ValueError "Missing column provided to 'parse_dates'")
      | None => Ok df
      end
  end.

(** [df[name]]. *)
Definition getitem (df : Frame) (name : string) : Result (list Cell) :=
  match df !! name with
  | Some s => Ok s
  | None => Raise (KeyError name)
  end.

Definition is_datetimelike (c : Cell) : bool :=
  match c with
  | VDate _ | VNA => true
  | _ => false
  end.

Definition week_cell (c : Cell) : Cell :=
  match c with
  | VDate d => VInt (IsoCalendar.week d)
  | _ => VNA
  end.

(** Whether a column that [read_csv] was asked to parse as dates has the
    datetime dtype: its cells are dates or missing, and it has rows.  A
    file without rows comes back with every column of dtype object, the
    columns of [parse_dates] included. *)
Definition is_datetime64 (s : list Cell) : bool :=
  negb (Pandas.empty s) && forallb is_datetimelike s.

(** [s.dt.isocalendar().week]: the accessor raises on a column whose
    dtype is not datetime. *)
Definition dt_isocalendar_week (s : list Cell) : Result (list Cell) :=
  if is_datetime64 s then Ok (List.map week_cell s)
  else Raise (AttributeError "Can only use .dt accessor with datetimelike values").

(** [s.map(d)] for a dict [d]: a cell that is no key of [d] gives NaN. *)
Fixpoint dict_get (d : list (Cell * Cell)) (k : Cell) : Cell :=
  match d with
  | [] => VNA
  | (k', v) :: d' => if decide (k = k') then v else dict_get d' k
  end.

Definition series_map (d : list (Cell * Cell)) (s : list Cell) : list Cell :=
  List.map (dict_get d) s.

(** Lines 8 to 15, without the decorator. *)
Definition load_data_body (fs : Files) (path : string) : Result Frame :=
  df ← read_csv fs path ["fecha"];
  df ← match df !! "week" with
       | None =>
           fecha ← getitem df "fecha";
           w ← dt_isocalendar_week fecha;
           mret (<["week" := w]> df)
       | Some _ => mret df
       end;
  df ← match df !! "loc_vi" with
       | None =>
           home ← getitem df "is_home";
           mret (<["loc_vi" :=
                    series_map [(VBool true, VStr "Casa");
                                (VBool false, VStr "Visitante")] home]> df)
       | Some _ => mret df
       end;
  mret df.

(** ** [@st.cache_data]

    The state the decorated function runs in: the files, which anything
    may change between two calls, and the cache of the decorator, keyed
    by the argument. *)
Record World := mkWorld {
  files : Files;
  cache : gmap string Frame
}.

(** The decorator: a stored result is returned without running the
    function; a result is stored when the function returns; nothing is
    stored when it raises. *)
Definition cache_data (f : Files -> string -> Result Frame) (path : string)
    (w : World) : Result Frame * World :=
  match cache w !! path with
  | Some df => (Ok df, w)
  | None =>
      match f (files w) path with
      | Ok df => (Ok df, {| files := files w; cache := <[path := df]> (cache w) |})
      | Raise e => (Raise e, w)
      end
  end.

(** Line 7: [load_data] as the script calls it. *)
Definition load_data : string -> World -> Result Frame * World :=
  cache_data load_data_body.

(** What can happen between two calls of [load_data]: the files change,
    or [load_data] is called. *)
Inductive step : World -> World -> Prop :=
| step_files w fs : step w {| files := fs; cache := cache w |}
| step_load w path r w' : load_data path w = (r, w') -> step w w'.

Inductive later : World -> World -> Prop :=
| later_now w : later w w
| later_step w1 w2 w3 : step w1 w2 -> later w2 w3 -> later w1 w3.

(** A file without [week] and [loc_vi], and one with both. *)
Definition raw_frame : Frame :=
  <["fecha" := [VDate (mkDate 2023 9 10); VDate (mkDate 2021 1 3); VNA]]>
  (<["is_home" := [VBool true; VBool false; VBool true]]>
  (<["sacks_permitidos" := [VInt 3; VInt 1; VInt 0]]> ∅)).

Definition full_frame : Frame :=
  <["week" := [VInt 1; VInt 17; VInt 18]]>
  (<["loc_vi" := [VStr "Casa"; VStr "Casa"; VStr "Visitante"]]> raw_frame).

Definition sample_files : Files :=
  <["processed_data.csv" := raw_frame]> (<["full.csv" := full_frame]> ∅).

(** What the loader makes of [raw_frame]. *)
Definition loaded_frame : Frame :=
  <["loc_vi" := [VStr "Casa"; VStr "Visitante"; VStr "Casa"]]>
  (<["week" := [VInt 36; VInt 53; VNA]]> raw_frame).

(** Before the first call, after it, and after the files are gone. *)
Definition world0 : World := {| files := sample_files; cache := ∅ |}.
Definition world1 : World :=
  {| files := sample_files;
     cache := <["processed_data.csv" := loaded_frame]> ∅ |}.
Definition world2 : World := {| files := ∅; cache := cache world1 |}.

End Data.

(* ================================================================== *)
(** * The page ([__main__.py], lines 68 to 136) *)
(* ================================================================== *)

Module Main.

(** What [st.plotly_chart] is given. *)
Inductive Chart :=
| BarChart (fig : Plots.BarFigure)
| ScatterChart (fig : Plots.ScatterFigure)
| BoxChart (fig : Plots.BoxFigure)
| HeatmapChart (fig : Heatmap.Figure).

(** The calls the script makes once the filters are applied, in program
    order: the [st.*] calls that put something on the page, and the calls
    of the chart builders with their table argument. *)
Inductive Event :=
| St_title (text : string)
| St_write
| St_subheader (text : string)
| St_info (text : string)
| St_plotly_chart (fig : Chart)
| St_dataframe (rows : list Top10Row)
| Call_bar_avg_sacks_losses (df : Table)
| Call_scatter_sacks_vs_points (df : Table) (color_col symbol_col trend_scope : string)
| Call_box_sacks_distribution (df : Table) (group_by_team : bool)
| Call_corr_heatmap (df : Table) (numeric_cols : list string) (method : Heatmap.Method)
| Call_scatter_sacks_vs_margin (df : Table).

Definition no_data : string := "No hay datos con los filtros actuales.".

(** The notices, and the calls of the box and margin builders. *)
Definition is_info (e : Event) : bool :=
  match e with St_info _ => true | _ => false end.

Definition is_box_or_margin_call (e : Event) : bool :=
  match e with
  | Call_box_sacks_distribution _ _ | Call_scatter_sacks_vs_margin _ => true
  | _ => false
  end.

Section Page.
Context (L : Heatmap.StatsLib) {SV : SortValues}.

(** Lines 68 to 111 and the call of line 115. *)
Definition page_to_heatmap (df_raw : Table) (C : Criteria)
    (method : Heatmap.Method) : list Event :=
  let team_sel := team_sel df_raw C in
  let df_f := df_f df_raw C in
  let df_o := df_o df_f (c_resultado C) in
  let several := c_all_teams C || (1 <? List.length team_sel)%nat in
  [St_title "NFL Sacks Analysis – margen ≥ 8 pts"; St_write;
   St_subheader "1 · Sacks promedio en derrotas";
   Call_bar_avg_sacks_losses df_f;
   St_plotly_chart (BarChart (Plots.bar_avg_sacks_losses df_f));
   St_subheader "2 · Sacks vs puntos anotados"]
  ++ (if negb (Pandas.empty df_o) then
        if several then
          [Call_scatter_sacks_vs_points df_o "team_abbr" "phase" "overall";
           St_plotly_chart
             (ScatterChart
                (Plots.scatter_sacks_vs_points df_o "team_abbr" "phase"
                   (Plots.color_discrete_sequence "px.colors.qualitative.Safe")
                   "overall"))]
        else
          [Call_scatter_sacks_vs_points df_o "phase" "resultado" "trace";
           St_plotly_chart
             (ScatterChart
                (Plots.scatter_sacks_vs_points df_o "phase" "resultado"
                   (Plots.color_discrete_map
                      [("regular", Plots.PALETTE_primary);
                       ("playoff", Plots.PALETTE_secondary)])
                   "trace"))]
      else [St_info no_data])
  ++ [St_subheader "3 · Distribución de sacks";
      Call_box_sacks_distribution df_o several;
      St_plotly_chart (BoxChart (Plots.box_sacks_distribution df_o several));
      St_subheader "4 · Matriz de correlaciones";
      Call_corr_heatmap df_f Heatmap.num_cols method].

(** Lines 115 to 136, when [corr_heatmap] has returned [fig], up to the
    call of [scatter_sacks_vs_margin]. *)
Definition page_after_heatmap (df_raw : Table) (C : Criteria)
    (fig : Heatmap.Figure) : list Event :=
  let df_f := df_f df_raw C in
  let df_o := df_o df_f (c_resultado C) in
  [St_plotly_chart (HeatmapChart fig);
   St_subheader "5 · Top-10 partidos con más sacks";
   St_dataframe (top10_table df_f);
   St_subheader "6 · Sacks vs margen (scatter)";
   Call_scatter_sacks_vs_margin df_o].

(** The run of lines 68 to 136: the calls made, and how the run ends.
    The run stops at the first call that raises: [corr_heatmap] on line
    115 or [scatter_sacks_vs_margin] on line 136; the other plotly and
    streamlit calls are taken to return. *)
Definition page (df_raw : Table) (C : Criteria) (method : Heatmap.Method)
    : list Event * Result unit :=
  match Heatmap.corr_heatmap L (df_f df_raw C) Heatmap.num_cols method with
  | Raise e => (page_to_heatmap df_raw C method, Raise e)
  | Ok fig =>
      let events :=
        page_to_heatmap df_raw C method ++ page_after_heatmap df_raw C fig in
      match Plots.scatter_sacks_vs_margin
              (df_o (df_f df_raw C) (c_resultado C)) with
      | Raise e => (events, Raise e)
      | Ok fig6 => (events ++ [St_plotly_chart (ScatterChart fig6)], Ok ())
      end
  end.
End Page.

(** A table of lost games only, and the sidebar as it can be set for it:
    its one season, its one phase, all teams, the slider at 0 (some game
    has no sack), the outcome selector on "win". *)
Definition lost_game (wk : Z) (team : string) (sacks : Z) (pct : Q)
    (puntos mrg : Z) : GameRecord :=
  {| season := 2023; week := wk; phase := "regular"; team_abbr := team;
     partido_id := "2023_" ++ team; local_team_name := team;
     visitante_team_name := "Rival"; fecha := mkDate 2023 9 10;
     is_home := true; loc_vi := "Casa"; resultado := "loss";
     sacks_permitidos := sacks; pct_sacks := pct;
     puntos_anotados := puntos; margin := mrg |}.

Definition lost_games : Table :=
  [ lost_game 1 "KC" 0 0%Q 21 (-8);
    lost_game 1 "BUF" 1 (25 # 10)%Q 17 (-10);
    lost_game 2 "DET" 2 5%Q 13 (-12);
    lost_game 2 "KC" 3 (75 # 10)%Q 9 (-14) ].

Definition win_criteria : Criteria :=
  {| c_season := 2023; c_phase_sel := ["regular"];
     c_all_teams := true; c_teams := []; c_resultado := "win";
     c_min_sacks := 0 |}.

(** The correlations of the four numeric columns of [lost_games], each
    linear in the others (sacks and percentage rise together, points and
    margin fall with them), and a leaf order of the clustering. *)
Definition lost_games_corr : Heatmap.Matrix :=
  [ [Some 1%Q; Some 1%Q; Some (-1)%Q; Some (-1)%Q];
    [Some 1%Q; Some 1%Q; Some (-1)%Q; Some (-1)%Q];
    [Some (-1)%Q; Some (-1)%Q; Some 1%Q; Some 1%Q];
    [Some (-1)%Q; Some (-1)%Q; Some 1%Q; Some 1%Q] ].

Definition lost_games_lib : Heatmap.StatsLib :=
  {| Heatmap.corr := fun _ _ _ => lost_games_corr;
     Heatmap.dendrogram_leaves := fun _ => Ok [0; 1; 2; 3]%nat |}.

End Main.

(* ================================================================== *)
(** * Further definitions: sidebar options and variations of criteria *)
(* ================================================================== *)

Module Sidebar.

(** Line 38: the options (and the default) of the "Fase" multiselect. *)
Definition phase_options (df_raw : Table) : list string :=
  sorted (Pandas.unique (Pandas.col phase df_raw)).

(** Lines 42 and 44: the options of the "Equipos" multiselect, which are
    also [team_sel] when the all-teams box is ticked. *)
Definition team_options (df_raw : Table) : list string :=
  sorted (Pandas.unique (Pandas.col team_abbr df_raw)).

End Sidebar.

(** The criteria with the slider moved to [m]. *)
Definition with_min_sacks (C : Criteria) (m : Z) : Criteria :=
  {| c_season := c_season C; c_phase_sel := c_phase_sel C;
     c_all_teams := c_all_teams C; c_teams := c_teams C;
     c_resultado := c_resultado C; c_min_sacks := m |}.

(** The season, team and threshold predicates of the first stage. *)
Definition passes_but_phase (C : Criteria) (r : GameRecord) : Prop :=
  season r = c_season C
  /\ (c_all_teams C = true \/ c_teams C = [] \/ team_abbr r ∈ c_teams C)
  /\ c_min_sacks C <= sacks_permitidos r.

(** A table with a win and a loss per team, and criteria that pick one
    team. *)
Definition mixed_table : Table :=
  [ sample_game "KC" "loss" 3; sample_game "DET" "win" 1;
    sample_game "KC" "win" 2; sample_game "DET" "loss" 6 ].

Definition one_team_criteria : Criteria :=
  {| c_season := 2023; c_phase_sel := ["regular"];
     c_all_teams := false; c_teams := ["KC"]; c_resultado := "loss";
     c_min_sacks := 0 |}.

Module DataSamples.
Import Data.

(** A file without [is_home] and [loc_vi], and a file whose [fecha] did
    not parse as dates. *)
Definition no_home_frame : Frame :=
  <["fecha" := [VDate (mkDate 2023 9 10)]]> (<["week" := [VInt 36]]> ∅).

Definition text_dates_frame : Frame :=
  <["fecha" := [VStr "next sunday"]]> (<["is_home" := [VBool true]]> ∅).

(** A file with a header and no rows. *)
Definition zero_rows_frame : Frame :=
  <["fecha" := []]> (<["is_home" := []]> (<["sacks_permitidos" := []]> ∅)).

Definition broken_files : Files :=
  <["no_home.csv" := no_home_frame]>
  (<["text_dates.csv" := text_dates_frame]>
  (<["zero_rows.csv" := zero_rows_frame]>
  (<["no_fecha.csv" := (∅ : Frame)]> ∅))).

(** The cache is empty and the data file is not there yet. *)
Definition world_without_file : World := {| files := ∅; cache := ∅ |}.

(** The columns the rest of the script reads that the file need not have,
    and the date column. *)
Definition has_derived_columns (df : Frame) : Prop :=
  is_Some (df !! "week") /\ is_Some (df !! "loc_vi") /\ is_Some (df !! "fecha").

(** Every column has [n] cells. *)
Definition rectangular (n : nat) (df : Frame) : Prop :=
  forall c s, df !! c = Some s -> List.length s = n.

End DataSamples.

Module PageEvents.
Import Main.

(** The calls of the chart builders, and the tables put on the page. *)
Definition is_builder_call (e : Event) : bool :=
  match e with
  | Call_bar_avg_sacks_losses _ | Call_scatter_sacks_vs_points _ _ _ _
  | Call_box_sacks_distribution _ _ | Call_corr_heatmap _ _ _
  | Call_scatter_sacks_vs_margin _ => true
  | _ => false
  end.

Definition is_dataframe (e : Event) : bool :=
  match e with St_dataframe _ => true | _ => false end.

(** A library whose clustering raises, as scipy does on a matrix with
    NaN. *)
Definition failing_lib : Heatmap.StatsLib :=
  {| Heatmap.corr := fun _ _ _ => Heatmap.sample_corr;
     Heatmap.dendrogram_leaves := fun _ =>
       Raise (ValueError "The condensed distance matrix must contain only finite values.") |}.

End PageEvents.

Module Calendar.
Import IsoCalendar.

(** The days of a month, as Python's [datetime] counts them. *)
Definition days_in_month (y m : Z) : Z :=
  if (m =? 2)%Z && is_leap y then 29
  else nth (Z.to_nat (m - 1)) [31; 28; 31; 30; 31; 30; 31; 31; 30; 31; 30; 31] 0.

(** A date of the calendar. *)
Definition valid_date (d : Date) : Prop :=
  1 <= d_month d <= 12 /\ 1 <= d_day d <= days_in_month (d_year d) (d_month d).

Definition leap_day (y : Z) : Z := if is_leap y then 1 else 0.

End Calendar.
(* ================================================================== *)
(** * The definitions on sample inputs *)
(* ================================================================== *)

Example team_sel_all_teams :
  team_sel sample_table sample_criteria = ["BUF"; "DET"; "KC"].
Proof. reflexivity. Qed.

Example mask_sample :
  mask sample_table sample_criteria = [true; true; true; false].
Proof. reflexivity. Qed.

Example df_o_sample :
  List.map sacks_permitidos (df_o (df_f sample_table sample_criteria) "loss") = [3; 5].
Proof. reflexivity. Qed.

Example iso_week_samples :
  List.map IsoCalendar.week
    [mkDate 2023 9 10; mkDate 2021 1 3; mkDate 2024 12 30; mkDate 2020 12 31;
     mkDate 2018 12 31; mkDate 2023 1 1; mkDate 2024 2 29]
  = [36; 53; 1; 53; 1; 52; 9].
Proof. reflexivity. Qed.

Example color_label :
  Plots.str_title (Plots.replace_underscores "team_abbr") = "Team Abbr".
Proof. reflexivity. Qed.

Example load_missing_file :
  Data.load_data_body Data.sample_files "nowhere.csv"
  = Raise (FileNotFoundError "nowhere.csv").
Proof. reflexivity. Qed.

Example heatmap_sample_cells :
  match Heatmap.corr_heatmap Heatmap.sample_lib sample_table Heatmap.num_cols
          Heatmap.pearson with
  | Ok fig =>
      Heatmap.z fig
      = [ [None; None; None; None];
          [Some (81 # 100)%Q; None; None; None];
          [Some (-41 # 100)%Q; Some (-37 # 100)%Q; None; None];
          [Some (-22 # 100)%Q; Some (-30 # 100)%Q; Some (58 # 100)%Q; None] ]
  | Raise _ => False
  end.
Proof. reflexivity. Qed.

(* ================================================================== *)
(** * Lemmas on the pandas operations *)
(* ================================================================== *)

Section SeriesFacts.
Context {A : Type}.
Implicit Types (f g : A -> bool) (l : list A).

Lemma band_map f g l :
  Pandas.band (List.map f l) (List.map g l) = List.map (fun x => f x && g x) l.
Proof. induction l as [|x l IH]; simpl; [reflexivity | now rewrite IH]. Qed.

Lemma boolean_index_map f l :
  Pandas.boolean_index l (List.map f l) = List.filter f l.
Proof.
  induction l as [|x l IH]; simpl; [reflexivity|].
  destruct (f x); now rewrite IH.
Qed.

Lemma filter_all_true f l :
  (forall x, x ∈ l -> f x = true) -> List.filter f l = l.
Proof.
  induction l as [|x l IH]; simpl; intros H; [reflexivity|].
  rewrite (H x) by constructor.
  f_equal. apply IH. intros y Hy. apply H. now constructor.
Qed.

Lemma filter_all_false f l :
  (forall x, x ∈ l -> f x = false) -> List.filter f l = [].
Proof.
  induction l as [|x l IH]; simpl; intros H; [reflexivity|].
  rewrite (H x) by constructor.
  apply IH. intros y Hy. apply H. now constructor.
Qed.

Lemma Selects_filter (P : A -> Prop) f l :
  (forall x, x ∈ l -> f x = true <-> P x) -> Selects P l (List.filter f l).
Proof.
  induction l as [|x l IH]; simpl; intros H; [constructor|].
  assert (Hl : forall y, y ∈ l -> f y = true <-> P y)
    by (intros y Hy; apply H; now constructor).
  destruct (f x) eqn:Hx.
  - apply Selects_keep; [apply H; [constructor | exact Hx] | auto].
  - apply Selects_drop; [|auto].
    intros HP. apply H in HP; [congruence | constructor].
Qed.

Lemma Selects_sublist (P : A -> Prop) l l' : Selects P l l' -> sublist l' l.
Proof. induction 1; [constructor | now constructor | now constructor]. Qed.

Lemma Selects_Forall (P : A -> Prop) l l' : Selects P l l' -> Forall P l'.
Proof. induction 1; auto. Qed.

Lemma Selects_complete (P : A -> Prop) l l' :
  Selects P l l' -> forall x, x ∈ l -> P x -> x ∈ l'.
Proof.
  induction 1 as [|x l l' HP _ IH|x l l' HP _ IH]; intros y Hy HPy.
  - inversion Hy.
  - apply elem_of_cons in Hy as [->|Hy]; [constructor | constructor; auto].
  - apply elem_of_cons in Hy as [->|Hy]; [contradiction | auto].
Qed.

(** The relation determines its result. *)
Lemma Selects_functional (P : A -> Prop) l l1 l2 :
  Selects P l l1 -> Selects P l l2 -> l1 = l2.
Proof.
  intros H1. revert l2.
  induction H1 as [|x l l1 HP _ IH|x l l1 HP _ IH]; intros l2 H2;
    inversion H2; subst; try contradiction; auto.
  f_equal; auto.
Qed.

Lemma Selects_ext (P Q : A -> Prop) l l' :
  (forall x, x ∈ l -> P x <-> Q x) -> Selects P l l' -> Selects Q l l'.
Proof.
  intros H HS. induction HS as [|x l l' HP _ IH|x l l' HP _ IH].
  - constructor.
  - apply Selects_keep; [apply H; [constructor | exact HP]|].
    apply IH. intros y Hy. apply H. now constructor.
  - apply Selects_drop; [intros HQ; apply HP, H; [constructor | exact HQ]|].
    apply IH. intros y Hy. apply H. now constructor.
Qed.
End SeriesFacts.

Lemma existsb_eqb_elem_of (x : string) (l : list string) :
  existsb (String.eqb x) l = true <-> x ∈ l.
Proof.
  rewrite existsb_exists. split.
  - intros (y & Hy & Heq). apply String.eqb_eq in Heq. subst.
    now apply list_elem_of_In.
  - intros H. exists x. split; [now apply list_elem_of_In | apply String.eqb_refl].
Qed.

Lemma elem_of_unique_from (seen s : list string) (x : string) :
  x ∈ Pandas.unique_from seen s <-> x ∈ s /\ x ∉ seen.
Proof.
  revert seen. induction s as [|y s IH]; intros seen; simpl.
  - split; [intros H; inversion H | intros [H _]; inversion H].
  - destruct (existsb (String.eqb y) seen) eqn:E.
    + apply existsb_eqb_elem_of in E. rewrite IH, elem_of_cons.
      split; [tauto|]. intros [[->|H] Hn]; [contradiction | tauto].
    + assert (Hy : y ∉ seen).
      { intros H. apply existsb_eqb_elem_of in H. congruence. }
      rewrite !elem_of_cons, IH, elem_of_cons.
      split.
      * intros [->|[H Hn]]; [tauto|]. split; [tauto|]. tauto.
      * intros [[->|H] Hn]; [tauto|].
        destruct (String.eqb_spec x y) as [->|Hne]; [tauto|]. right. tauto.
Qed.

Lemma elem_of_unique (s : list string) (x : string) :
  x ∈ Pandas.unique s <-> x ∈ s.
Proof.
  unfold Pandas.unique. rewrite elem_of_unique_from.
  split; [tauto|]. intros H. split; [exact H|]. intros H'. inversion H'.
Qed.

Lemma elem_of_sorted (l : list string) (x : string) : x ∈ sorted l <-> x ∈ l.
Proof. unfold sorted. now rewrite merge_sort_Permutation. Qed.

(* ================================================================== *)
(** * Filter engine *)
(* ================================================================== *)

Lemma mask_rowwise (df : Table) (C : Criteria) :
  mask df C = List.map (row_mask (effective_teams df C) C) df.
Proof.
  unfold mask, effective_teams, row_mask, Pandas.eq_int, Pandas.isin,
    Pandas.ge_int, Pandas.col.
  rewrite !List.map_map.
  now rewrite !band_map.
Qed.

Lemma mask_length (df : Table) (C : Criteria) :
  List.length (mask df C) = List.length df.
Proof. rewrite mask_rowwise. apply List.length_map. Qed.

Lemma df_f_filter (df : Table) (C : Criteria) :
  df_f df C = List.filter (row_mask (effective_teams df C) C) df.
Proof. unfold df_f. rewrite mask_rowwise. apply boolean_index_map. Qed.

Lemma elem_of_col {A} (f : GameRecord -> A) (df : Table) (r : GameRecord) :
  r ∈ df -> f r ∈ Pandas.col f df.
Proof. intros H. unfold Pandas.col. apply list_elem_of_In, in_map, list_elem_of_In, H. Qed.

(** The team test of line 61, row by row. *)
Lemma effective_teams_spec (df : Table) (C : Criteria) (r : GameRecord) :
  r ∈ df ->
  team_abbr r ∈ effective_teams df C <->
  c_all_teams C = true \/ c_teams C = [] \/ team_abbr r ∈ c_teams C.
Proof.
  intros Hr. unfold effective_teams, team_sel.
  destruct (c_all_teams C) eqn:Hall.
  - split; [auto|]. intros _.
    assert (Hin : team_abbr r ∈ sorted (Pandas.unique (Pandas.col team_abbr df)))
      by (apply elem_of_sorted, elem_of_unique, elem_of_col, Hr).
    destruct (sorted (Pandas.unique (Pandas.col team_abbr df))); [inversion Hin | exact Hin].
  - destruct (c_teams C) as [|t ts] eqn:Hts.
    + split; [auto|]. intros _. now apply elem_of_col.
    + split; [auto|]. intros [H|[H|H]]; [discriminate | discriminate | exact H].
Qed.

Lemma row_mask_passes (df : Table) (C : Criteria) (r : GameRecord) :
  r ∈ df -> row_mask (effective_teams df C) C r = true <-> passes C r.
Proof.
  intros Hr. unfold row_mask, passes.
  rewrite !andb_true_iff, Z.eqb_eq, Z.leb_le, !existsb_eqb_elem_of.
  rewrite (effective_teams_spec df C r Hr). tauto.
Qed.

Lemma df_f_Selects (T : Table) (C : Criteria) : Selects (passes C) T (df_f T C).
Proof.
  rewrite df_f_filter. apply Selects_filter.
  intros r Hr. now apply row_mask_passes.
Qed.

(** C1 (as amended).  The first-stage filter keeps exactly the rows of the
    table that satisfy the four predicates, in their original order: the
    result is a sublist of the table, every row of it has the selected
    season, a phase of the phase set, a team of the team set unless the
    all-teams box is ticked or the team set is empty, and at least the
    threshold of sacks, and no row of the table that satisfies the four is
    left out. *)
Theorem first_stage_filter_exact (T : Table) (C : Criteria) :
  Selects (passes C) T (df_f T C)
  /\ sublist (df_f T C) T
  /\ Forall (passes C) (df_f T C)
  /\ (forall r, r ∈ T -> passes C r -> r ∈ df_f T C).
Proof.
  pose proof (df_f_Selects T C) as H.
  repeat split.
  - exact H.
  - eapply Selects_sublist, H.
  - eapply Selects_Forall, H.
  - eapply Selects_complete, H.
Qed.

Lemma first_stage_filter_exact_witness :
  sample_game "BUF" "loss" 5 ∈ df_f sample_table no_team_criteria
  /\ sublist (df_f sample_table no_team_criteria) sample_table.
Proof.
  destruct (first_stage_filter_exact sample_table no_team_criteria)
    as (_ & Hsub & _ & Hall).
  split; [|exact Hsub].
  apply Hall.
  - do 2 apply list_elem_of_further. apply list_elem_of_here.
  - repeat split; simpl; [| |lia].
    + apply list_elem_of_further, list_elem_of_here.
    + right. left. reflexivity.
Defined.

(** C1 as stated fails: with no team chosen and the all-teams box not
    ticked, the filter returns a row whose team is not in the (empty) team
    set. *)
Lemma first_stage_flag_only_fails :
  df_f sample_table no_team_criteria
  = [sample_game "KC" "loss" 3; sample_game "DET" "win" 1; sample_game "BUF" "loss" 5]
  /\ ~ Forall (passes_flag_only no_team_criteria) (df_f sample_table no_team_criteria).
Proof.
  split; [reflexivity|].
  intros H. apply Forall_inv in H.
  destruct H as (_ & _ & [Hflag|Hteam] & _).
  - discriminate Hflag.
  - inversion Hteam.
Qed.

(** C4.  Filtering twice with the same criteria is filtering once. *)
Theorem first_stage_idempotent (T : Table) (C : Criteria) :
  df_f (df_f T C) C = df_f T C.
Proof.
  rewrite (df_f_filter (df_f T C) C).
  apply filter_all_true. intros r Hr.
  apply row_mask_passes; [exact Hr|].
  pose proof (Selects_Forall _ _ _ (df_f_Selects T C)) as HF.
  rewrite Forall_forall in HF. apply HF, Hr.
Qed.

(** C3.  The outcome filter with selector "all" returns its table, and
    with "win" or "loss" exactly the rows whose [resultado] is the
    selector, in order. *)
Theorem outcome_filter_spec (T : Table) :
  df_o T "all" = T
  /\ Selects (fun r => resultado r = "win") T (df_o T "win")
  /\ Selects (fun r => resultado r = "loss") T (df_o T "loss").
Proof.
  split; [reflexivity|].
  unfold df_o, Pandas.eq_str, Pandas.col; simpl.
  rewrite !List.map_map, !boolean_index_map.
  split; apply Selects_filter; intros r _; apply String.eqb_eq.
Qed.

(** C10.  With no team chosen and the all-teams box not ticked the team
    predicate is bypassed: the result is that of the three other
    predicates, the same as with the box ticked; with no phase chosen the
    result is empty. *)
Theorem empty_team_selection_bypasses (T : Table) (C : Criteria) :
  (c_all_teams C = false -> c_teams C = [] ->
     Selects (passes_but_team C) T (df_f T C)
     /\ df_f T C = df_f T (with_all_teams C))
  /\ (c_phase_sel C = [] -> df_f T C = []).
Proof.
  split.
  - intros Hall Hts. split.
    + eapply Selects_ext; [|apply df_f_Selects].
      intros r _. unfold passes, passes_but_team. rewrite Hts. tauto.
    + eapply Selects_functional; [apply df_f_Selects|].
      eapply Selects_ext; [|apply (df_f_Selects T (with_all_teams C))].
      intros r _. unfold passes; simpl. rewrite Hts. tauto.
  - intros Hph. rewrite df_f_filter. apply filter_all_false.
    intros r _. unfold row_mask. rewrite Hph. simpl.
    now rewrite andb_false_r.
Qed.

Lemma empty_team_selection_bypasses_witness :
  (Selects (passes_but_team no_team_criteria) sample_table
     (df_f sample_table no_team_criteria)
   /\ df_f sample_table no_team_criteria
      = df_f sample_table (with_all_teams no_team_criteria))
  /\ df_f sample_table no_phase_criteria = [].
Proof.
  split.
  - apply (empty_team_selection_bypasses sample_table no_team_criteria); reflexivity.
  - apply (empty_team_selection_bypasses sample_table no_phase_criteria); reflexivity.
Defined.

(* ================================================================== *)
(** * Top-10 table *)
(* ================================================================== *)

Section RankFacts.
Implicit Types (T S : Table) (r : GameRecord).

Lemma rank_Permutation T S r : Permutation T S -> rank T r = rank S r.
Proof.
  intros HP. unfold rank.
  induction HP as [|x l l' _ IH|x y l|l l' l'' _ IH1 _ IH2]; simpl.
  - reflexivity.
  - destruct (_ <? _)%Z; simpl; now rewrite IH.
  - do 2 destruct (_ <? _)%Z; reflexivity.
  - now rewrite IH1.
Qed.

Lemma rank_app T S r : rank (T ++ S) r = (rank T r + rank S r)%nat.
Proof. unfold rank. now rewrite List.filter_app, List.length_app. Qed.

Lemma rank_all_above T r :
  Forall (fun x => sacks_permitidos r < sacks_permitidos x) T ->
  rank T r = List.length T.
Proof.
  intros HF. unfold rank. rewrite filter_all_true; [reflexivity|].
  rewrite Forall_forall in HF. intros x Hx. apply Z.ltb_lt. auto.
Qed.

Lemma rank_none_above T r :
  Forall (fun x => sacks_permitidos x <= sacks_permitidos r) T ->
  rank T r = 0%nat.
Proof.
  intros HF. unfold rank. rewrite filter_all_false; [reflexivity|].
  rewrite Forall_forall in HF. intros x Hx. apply Z.ltb_ge. auto.
Qed.

(** In a strictly descending table the rank of a row is its position. *)
Lemma rank_position (l1 l2 : Table) r :
  StronglySorted (fun x y => sacks_permitidos y < sacks_permitidos x)
    (l1 ++ r :: l2) ->
  rank (l1 ++ r :: l2) r = List.length l1.
Proof.
  intros HS.
  apply StronglySorted_app in HS as (H12 & _ & HS2).
  rewrite rank_app. change (r :: l2) with ([r] ++ l2). rewrite rank_app.
  rewrite rank_all_above.
  - rewrite (rank_none_above [r]) by (repeat constructor; lia).
    rewrite rank_none_above; [lia|].
    apply StronglySorted_inv in HS2 as [_ HF].
    eapply Forall_impl; [exact HF|]. simpl. intros; lia.
  - rewrite Forall_forall. intros x Hx. apply H12; [exact Hx | constructor].
Qed.
End RankFacts.

Lemma elem_of_take_split {A} (n : nat) (l1 l2 : list A) (x : A) :
  x ∉ l1 -> x ∈ take n (l1 ++ x :: l2) <-> (List.length l1 < n)%nat.
Proof.
  intros Hx. split.
  - intros Hin. destruct (Nat.lt_ge_cases (List.length l1) n) as [Hlt|Hge]; [exact Hlt|].
    rewrite take_app_le in Hin by exact Hge.
    exfalso. apply Hx. apply (subseteq_take _ _ _ Hin).
  - intros Hlt. rewrite take_app_ge by lia.
    apply elem_of_app. right.
    destruct (n - List.length l1)%nat as [|k] eqn:E; [lia|].
    simpl. constructor.
Qed.

Lemma elem_of_map {A B} (f : A -> B) (l : list A) (x : A) :
  x ∈ l -> f x ∈ List.map f l.
Proof. intros H. apply list_elem_of_In, in_map, list_elem_of_In, H. Qed.

Lemma NoDup_map_inv {A B} (f : A -> B) (l : list A) :
  NoDup (List.map f l) -> NoDup l.
Proof.
  induction l as [|x l IH]; simpl; intros H; [constructor|].
  apply NoDup_cons in H as [Hx H].
  apply NoDup_cons. split; [|auto].
  intros Hin. apply Hx. now apply elem_of_map.
Qed.

Lemma sorted_distinct_strict (T : Table) :
  NoDup (List.map sacks_permitidos T) ->
  StronglySorted
    (fun x y => (inject_Z (sacks_permitidos y) <= inject_Z (sacks_permitidos x))%Q) T ->
  StronglySorted (fun x y => sacks_permitidos y < sacks_permitidos x) T.
Proof.
  induction T as [|r T IH]; intros Hnd HS; [constructor|].
  simpl in Hnd. apply NoDup_cons in Hnd as [Hr Hnd].
  apply StronglySorted_inv in HS as [HS HF].
  constructor; [auto|].
  rewrite Forall_forall in HF |- *. intros x Hx.
  specialize (HF x Hx). rewrite <- Zle_Qle in HF.
  assert (sacks_permitidos x <> sacks_permitidos r); [|lia].
  intros Heq. apply Hr. rewrite <- Heq. now apply elem_of_map.
Qed.

Section Top10Facts.
Context {SV : SortValues}.

Let by_sacks (r : GameRecord) : Q := inject_Z (sacks_permitidos r).

Lemma sorted_table_strict (T : Table) :
  NoDup (List.map sacks_permitidos T) ->
  StronglySorted (fun x y => sacks_permitidos y < sacks_permitidos x)
    (sort_values_desc by_sacks T).
Proof.
  intros Hnd. apply sorted_distinct_strict.
  - now rewrite (Permutation_map sacks_permitidos (sort_values_desc_perm _ by_sacks T)).
  - apply (sort_values_desc_sorted _ by_sacks).
Qed.

Lemma top10_length (T : Table) :
  (10 <= List.length T)%nat -> List.length (top10 T) = 10%nat.
Proof.
  intros Hlen. unfold top10, Pandas.head.
  rewrite List.length_firstn.
  rewrite (Permutation_length (sort_values_desc_perm _ _ T)). lia.
Qed.

Lemma top10_sorted (T : Table) :
  NoDup (List.map sacks_permitidos T) ->
  StronglySorted (fun x y => sacks_permitidos y < sacks_permitidos x) (top10 T).
Proof.
  intros Hnd. unfold top10, Pandas.head.
  pose proof (sorted_table_strict T Hnd) as HS. fold by_sacks.
  rewrite <- (take_drop 10 (sort_values_desc by_sacks T)) in HS.
  now apply StronglySorted_app_1_l in HS.
Qed.

Lemma elem_of_top10 (T : Table) (r : GameRecord) :
  NoDup (List.map sacks_permitidos T) ->
  r ∈ top10 T <-> r ∈ T /\ (rank T r < 10)%nat.
Proof.
  intros Hnd.
  pose proof (sort_values_desc_perm _ by_sacks T) as HP.
  pose proof (sorted_table_strict T Hnd) as HS.
  assert (HndS : NoDup (sort_values_desc by_sacks T)).
  { apply (NoDup_map_inv sacks_permitidos).
    now rewrite (Permutation_map sacks_permitidos HP). }
  unfold top10, Pandas.head. fold by_sacks.
  rewrite <- (rank_Permutation _ _ r HP).
  split.
  - intros Hin.
    assert (HinS : r ∈ sort_values_desc by_sacks T) by apply (subseteq_take _ _ _ Hin).
    split; [now rewrite <- HP|].
    apply list_elem_of_split in HinS as (l1 & l2 & E).
    rewrite E in Hin, HS, HndS |- *.
    rewrite rank_position by exact HS.
    apply elem_of_take_split in Hin; [exact Hin|].
    apply NoDup_app in HndS as (_ & Hdisj & _).
    intros Hl1. apply (Hdisj r Hl1). constructor.
  - intros [HinT Hrank].
    assert (HinS : r ∈ sort_values_desc by_sacks T) by now rewrite HP.
    apply list_elem_of_split in HinS as (l1 & l2 & E).
    rewrite E in HS, HndS, Hrank |- *.
    rewrite rank_position in Hrank by exact HS.
    apply elem_of_take_split; [|exact Hrank].
    apply NoDup_app in HndS as (_ & Hdisj & _).
    intros Hl1. apply (Hdisj r Hl1). constructor.
Qed.
End Top10Facts.

Lemma StronglySorted_map {A B} (R : B -> B -> Prop) (f : A -> B) (l : list A) :
  StronglySorted (fun x y => R (f x) (f y)) l -> StronglySorted R (List.map f l).
Proof.
  induction 1 as [|x l _ IH HF]; simpl; [constructor|].
  constructor; [exact IH|].
  clear IH. induction HF; simpl; constructor; auto.
Qed.

Lemma elem_of_true_top10 (T : Table) (r : GameRecord) :
  r ∈ true_top10 T <-> r ∈ T /\ (rank T r < 10)%nat.
Proof.
  unfold true_top10. rewrite list_elem_of_In, filter_In, <- list_elem_of_In.
  now rewrite Nat.ltb_lt.
Qed.

Lemma NoDup_List_filter {A} (f : A -> bool) (l : list A) :
  NoDup l -> NoDup (List.filter f l).
Proof.
  induction 1 as [|x l Hx _ IH]; simpl; [constructor|].
  destruct (f x); [|exact IH].
  constructor; [|exact IH].
  rewrite list_elem_of_In, filter_In, <- list_elem_of_In. tauto.
Qed.

Lemma top10_columns_shows (r : GameRecord) : shows (top10_columns r) r.
Proof. unfold shows. simpl. repeat split. Qed.

Section Top10Shows.
Context {SV : SortValues}.

Lemma top10_table_shows (T : Table) : Forall2 shows (top10_table T) (top10 T).
Proof.
  unfold top10_table. induction (top10 T) as [|r l IH]; simpl; constructor.
  - apply top10_columns_shows.
  - exact IH.
Qed.

Lemma elem_of_top10_table (T : Table) (d : Top10Row) :
  d ∈ top10_table T -> exists r, r ∈ top10 T /\ shows d r.
Proof.
  unfold top10_table. rewrite list_elem_of_In, in_map_iff.
  intros (r & <- & Hr). exists r. split; [now apply list_elem_of_In|].
  apply top10_columns_shows.
Qed.
End Top10Shows.

(** C7.  The top-10 table is the projection on the six display columns of
    the first ten rows of the filtered table sorted by sacks allowed,
    descending: row by row it shows the season, week, match id, two team
    names and sacks allowed of those rows.  On a table of 15 rows with
    distinct sacks allowed it has exactly 10 rows, in strictly descending
    order of sacks allowed, and the games it shows are those of the true
    top 10 (the rows that fewer than ten rows beat), whatever sort of the
    contract is used. *)
Theorem top10_of_fifteen {SV : SortValues} (T : Table) :
  List.length T = 15%nat ->
  NoDup (List.map sacks_permitidos T) ->
  top10_table T
  = List.map top10_columns
      (firstn 10 (sort_values_desc (fun r => inject_Z (sacks_permitidos r)) T))
  /\ List.length (top10_table T) = 10%nat
  /\ StronglySorted (fun a b => t_sacks_permitidos b < t_sacks_permitidos a)
       (top10_table T)
  /\ (forall r, r ∈ top10 T <-> r ∈ true_top10 T)
  /\ Permutation (top10 T) (true_top10 T)
  /\ Permutation (top10_table T) (List.map top10_columns (true_top10 T))
  /\ Forall2 shows (top10_table T) (top10 T)
  /\ (forall d, d ∈ top10_table T -> exists r, r ∈ true_top10 T /\ shows d r)
  /\ (forall r, r ∈ true_top10 T -> exists d, d ∈ top10_table T /\ shows d r).
Proof.
  intros Hlen Hnd.
  assert (Hset : forall r, r ∈ top10 T <-> r ∈ true_top10 T).
  { intros r. rewrite elem_of_true_top10. now apply elem_of_top10. }
  split; [reflexivity|].
  split; [unfold top10_table; rewrite List.length_map; apply top10_length; lia|].
  split; [apply StronglySorted_map; simpl; now apply top10_sorted|].
  split; [exact Hset|].
  assert (HP : Permutation (top10 T) (true_top10 T));
    [|split; [exact HP|]; split; [unfold top10_table; now apply Permutation_map|];
      split; [apply top10_table_shows|]; split].
  2: { intros d Hd. apply elem_of_top10_table in Hd as (r & Hr & Hs).
       exists r. split; [now apply Hset | exact Hs]. }
  2: { intros r Hr. apply Hset in Hr.
       exists (top10_columns r). split; [|apply top10_columns_shows].
       unfold top10_table. now apply elem_of_map. }
  apply NoDup_Permutation; [| |exact Hset].
  - apply (NoDup_map_inv sacks_permitidos).
    pose proof (StronglySorted_map (fun a b => b < a) sacks_permitidos _
                  (top10_sorted T Hnd)) as HS.
    clear -HS. induction HS as [|x l _ IH HF]; constructor; [|exact IH].
    intros Hx. rewrite Forall_forall in HF. specialize (HF x Hx). lia.
  - apply NoDup_List_filter, (NoDup_map_inv sacks_permitidos), Hnd.
Qed.

Lemma top10_of_fifteen_witness :
  List.length (top10_table fifteen_games) = 10%nat
  /\ List.map t_sacks_permitidos (top10_table fifteen_games)
     = [14; 13; 12; 11; 10; 9; 8; 7; 6; 5]
  /\ Permutation (top10 fifteen_games) (true_top10 fifteen_games).
Proof.
  assert (Hnd : NoDup (List.map sacks_permitidos fifteen_games)).
  { apply (bool_decide_unpack _). vm_compute. reflexivity. }
  destruct (@top10_of_fifteen merge_sort_values fifteen_games eq_refl Hnd)
    as (_ & Hlen & _ & _ & Hperm & _).
  split; [exact Hlen|]. split; [vm_compute; reflexivity | exact Hperm].
Defined.

(* ================================================================== *)
(** * Average sacks in losses *)
(* ================================================================== *)

Lemma filter_filter {A} (f g : A -> bool) (l : list A) :
  List.filter f (List.filter g l) = List.filter (fun x => g x && f x) l.
Proof.
  induction l as [|x l IH]; simpl; [reflexivity|].
  destruct (g x); simpl; [destruct (f x)|]; now rewrite IH.
Qed.

Lemma NoDup_unique_from (seen s : list string) : NoDup (Pandas.unique_from seen s).
Proof.
  revert seen. induction s as [|x s IH]; intros seen; simpl; [constructor|].
  destruct (existsb (String.eqb x) seen); [apply IH|].
  constructor; [|apply IH].
  rewrite elem_of_unique_from. intros [_ Hx]. apply Hx. constructor.
Qed.

Lemma NoDup_sorted_unique (s : list string) : NoDup (sorted (Pandas.unique s)).
Proof.
  unfold sorted. rewrite merge_sort_Permutation. apply NoDup_unique_from.
Qed.

Lemma loss_df_filter (df : Table) :
  Pandas.boolean_index df (Pandas.eq_str (Pandas.col resultado df) "loss")
  = List.filter (fun r => String.eqb (resultado r) "loss") df.
Proof.
  unfold Pandas.eq_str, Pandas.col. rewrite List.map_map. apply boolean_index_map.
Qed.

Lemma mean_spec (s : Series Z) :
  s <> [] ->
  (Plots.mean s * inject_Z (Z.of_nat (List.length s)) == inject_Z (Plots.sum s))%Q.
Proof.
  intros Hs. unfold Plots.mean. rewrite Qred_correct, Qmult_comm.
  apply Qmult_div_r.
  change 0%Q with (inject_Z 0). rewrite inject_Z_injective.
  destruct s; [contradiction | simpl; lia].
Qed.

Lemma groupby_keys (df : Table) :
  List.map fst (Plots.groupby_team_mean_sacks df)
  = sorted (Pandas.unique (Pandas.col team_abbr df)).
Proof.
  unfold Plots.groupby_team_mean_sacks. rewrite List.map_map. simpl.
  apply List.map_id.
Qed.

Lemma elem_of_groupby (df : Table) (t : string) (v : Q) :
  (t, v) ∈ Plots.groupby_team_mean_sacks df <->
  t ∈ Pandas.col team_abbr df
  /\ v = Plots.mean (Pandas.col sacks_permitidos (Plots.group df t)).
Proof.
  unfold Plots.groupby_team_mean_sacks.
  rewrite list_elem_of_In, in_map_iff. split.
  - intros (k & E & Hk). inversion E; subst. split; [|reflexivity].
    now rewrite <- list_elem_of_In, elem_of_sorted, elem_of_unique in Hk.
  - intros [Ht ->]. exists t. split; [reflexivity|].
    now rewrite <- list_elem_of_In, elem_of_sorted, elem_of_unique.
Qed.

Lemma elem_of_col_iff {A} (f : GameRecord -> A) (df : Table) (a : A) :
  a ∈ Pandas.col f df <-> exists r, r ∈ df /\ f r = a.
Proof.
  unfold Pandas.col. rewrite list_elem_of_In, in_map_iff.
  split; intros (r & H1 & H2); exists r; [rewrite list_elem_of_In | rewrite <- list_elem_of_In]; tauto.
Qed.

Lemma elem_of_List_filter {A} (f : A -> bool) (l : list A) (x : A) :
  x ∈ List.filter f l <-> x ∈ l /\ f x = true.
Proof. now rewrite list_elem_of_In, filter_In, <- list_elem_of_In. Qed.

Section BarFacts.
Context {SV : SortValues}.

Lemma bars_Permutation (df : Table) :
  Permutation (Plots.bars (Plots.bar_avg_sacks_losses df))
    (Plots.groupby_team_mean_sacks
       (List.filter (fun r => String.eqb (resultado r) "loss") df)).
Proof.
  unfold Plots.bar_avg_sacks_losses. simpl. rewrite loss_df_filter.
  apply sort_values_desc_perm.
Qed.

(** C6.  The bar chart has one bar per team that has a loss row, no team
    twice; the value of a team's bar is the mean of [sacks_permitidos]
    over that team's loss rows; the bars are in descending order of
    value; and on the rows (A, loss, 2), (A, loss, 4), (B, win, 9) the
    chart has the single bar (A, 3). *)
Theorem bar_avg_sacks_losses_spec (df : Table) :
  let fig := Plots.bar_avg_sacks_losses df in
  NoDup (List.map fst (Plots.bars fig))
  /\ (forall t, t ∈ List.map fst (Plots.bars fig) <->
                exists r, r ∈ df /\ resultado r = "loss" /\ team_abbr r = t)
  /\ (forall t v, (t, v) ∈ Plots.bars fig ->
        loss_rows_of df t <> []
        /\ (v * inject_Z (Z.of_nat (List.length (loss_rows_of df t)))
            == inject_Z (Plots.sum (Pandas.col sacks_permitidos (loss_rows_of df t))))%Q)
  /\ StronglySorted (fun a b => (snd b <= snd a)%Q) (Plots.bars fig)
  /\ Plots.bars (Plots.bar_avg_sacks_losses bar_example) = [("A", 3%Q)].
Proof.
  intros fig. subst fig.
  pose proof (bars_Permutation df) as HP.
  set (loss_df := List.filter (fun r => String.eqb (resultado r) "loss") df) in *.
  assert (Hgroup : forall t, Plots.group loss_df t = loss_rows_of df t).
  { intros t. unfold Plots.group, loss_df, loss_rows_of. apply filter_filter. }
  assert (Hteams : forall t, t ∈ Pandas.col team_abbr loss_df <->
                   exists r, r ∈ df /\ resultado r = "loss" /\ team_abbr r = t).
  { intros t. rewrite elem_of_col_iff. unfold loss_df.
    split; intros (r & Hr & Ht); exists r.
    - apply elem_of_List_filter in Hr as [Hr Hl]. apply String.eqb_eq in Hl. tauto.
    - split; [|tauto]. apply elem_of_List_filter. rewrite String.eqb_eq. tauto. }
  split; [|split; [|split; [|split]]].
  - rewrite (Permutation_map fst HP), groupby_keys. apply NoDup_sorted_unique.
  - intros t. rewrite (Permutation_map fst HP), groupby_keys.
    now rewrite elem_of_sorted, elem_of_unique.
  - intros t v Hin. rewrite HP in Hin.
    apply elem_of_groupby in Hin as [Ht ->]. rewrite Hgroup.
    assert (Hne : loss_rows_of df t <> []).
    { apply Hteams in Ht as (r & Hr & Hl & Hteam).
      intros E.
      assert (Hin : r ∈ loss_rows_of df t).
      { unfold loss_rows_of. apply elem_of_List_filter. split; [exact Hr|].
        apply andb_true_iff. now rewrite !String.eqb_eq. }
      rewrite E in Hin. inversion Hin. }
    split; [exact Hne|].
    unfold Pandas.col at 1. rewrite <- (List.length_map sacks_permitidos).
    apply mean_spec. unfold Pandas.col.
    destruct (loss_rows_of df t); [contradiction | discriminate].
  - apply (sort_values_desc_sorted _ snd).
  - pose proof (bars_Permutation bar_example) as HPex.
    apply Permutation_sym, Permutation_length_1_inv in HPex. exact HPex.
Qed.
End BarFacts.

Lemma bar_avg_sacks_losses_spec_witness :
  Plots.bars (Plots.bar_avg_sacks_losses (SV := merge_sort_values) bar_example)
  = [("A", 3%Q)]
  /\ Plots.bars (Plots.bar_avg_sacks_losses (SV := merge_sort_values) sample_table)
     = [("BUF", 5%Q); ("KC", 3%Q)].
Proof.
  split.
  - apply (bar_avg_sacks_losses_spec (SV := merge_sort_values) bar_example).
  - vm_compute. reflexivity.
Defined.

(* ================================================================== *)
(** * Correlation heatmap *)
(* ================================================================== *)

Module HeatmapFacts.
Import Heatmap.

(** ** The mask *)

Lemma mask_row_nth (row : list (option Q)) (i j0 j : nat) :
  nth_error (mask_row row (triu_row i j0 (List.map (fun _ => true) row))) j
  = match nth_error row j with
    | Some v => Some (if (j0 + j <? i)%nat then v else None)
    | None => None
    end.
Proof.
  revert j0 j. induction row as [|v row IH]; intros j0 j.
  - now destruct j.
  - destruct j as [|j]; simpl.
    + rewrite Nat.add_0_r. now destruct (j0 <? i)%nat.
    + rewrite IH. now replace (S j0 + j)%nat with (j0 + S j)%nat by lia.
Qed.

Lemma df_mask_nth (m : Matrix) (k i : nat) :
  nth_error (df_mask m (triu_from k (ones_like m))) i
  = match nth_error m i with
    | Some row =>
        Some (mask_row row (triu_row (k + i) 0 (List.map (fun _ => true) row)))
    | None => None
    end.
Proof.
  revert k i. induction m as [|row m IH]; intros k i.
  - now destruct i.
  - destruct i as [|i]; simpl.
    + now rewrite Nat.add_0_r.
    + unfold ones_like in IH. rewrite IH.
      now replace (S k + i)%nat with (k + S i)%nat by lia.
Qed.

(** Cell (i, j) of the masked matrix: empty on and above the diagonal,
    the cell of the matrix below it. *)
Lemma displayed_mask (m : Matrix) (i j : nat) :
  displayed (df_mask m (triu (ones_like m))) i j
  = if (j <? i)%nat then displayed m i j else None.
Proof.
  unfold displayed, triu. rewrite df_mask_nth.
  destruct (nth_error m i) as [row|]; [|now destruct (j <? i)%nat].
  rewrite mask_row_nth. simpl.
  destruct (nth_error row j); now destruct (j <? i)%nat.
Qed.

(** ** The reordering *)

Lemma take_positions_Ok {A} (order : list nat) (l : list A) :
  Forall (fun i => (i < List.length l)%nat) order ->
  exists r, take_positions order l = Ok r
            /\ List.length r = List.length order
            /\ (forall x, x ∈ r -> x ∈ l).
Proof.
  induction 1 as [|i order Hi _ (r & E & Hlen & Hin)]; simpl.
  - exists []. repeat split; auto. intros x Hx. inversion Hx.
  - destruct (nth_error l i) as [x|] eqn:Ex.
    + rewrite E. exists (x :: r). split; [reflexivity|]. split; [simpl; lia|].
      intros y Hy. apply elem_of_cons in Hy as [->|Hy]; [|auto].
      apply list_elem_of_In. eapply nth_error_In, Ex.
    + apply nth_error_None in Ex. lia.
Qed.

Lemma each_row_Ok {A B} (f : A -> Result B) (P : B -> Prop) (m : list A) :
  Forall (fun row => exists row', f row = Ok row' /\ P row') m ->
  exists m', each_row f m = Ok m' /\ Forall P m'.
Proof.
  induction 1 as [|row m (row' & E & HP) _ (m' & Em & HF)]; simpl.
  - exists []. split; [reflexivity | constructor].
  - rewrite E. simpl. rewrite Em. exists (row' :: m'). split; [reflexivity|].
    now constructor.
Qed.

Lemma iloc_Ok (n : nat) (m : Matrix) (order : list nat) :
  square n m -> in_unit_range m ->
  Forall (fun i => (i < n)%nat) order ->
  exists m', iloc m order = Ok m' /\ in_unit_range m'.
Proof.
  intros [Hrows Hcols] Hrange Hord. unfold iloc, in_unit_range in *.
  destruct (take_positions_Ok order m) as (rows & E & _ & Hin);
    [now rewrite Hrows|].
  rewrite E. simpl.
  apply each_row_Ok.
  rewrite Forall_forall in Hcols, Hrange |- *. intros row Hrow.
  apply Hin in Hrow.
  destruct (take_positions_Ok order row) as (row' & E' & _ & Hin');
    [now rewrite (Hcols row Hrow)|].
  exists row'. split; [exact E'|].
  rewrite Forall_forall. intros c Hc.
  specialize (Hrange row Hrow). rewrite Forall_forall in Hrange.
  apply Hrange, Hin', Hc.
Qed.

Lemma displayed_in_range (m : Matrix) (i j : nat) (v : Q) :
  in_unit_range m -> displayed m i j = Some v -> (-1 <= v /\ v <= 1)%Q.
Proof.
  unfold in_unit_range, displayed. intros Hrange Hd.
  destruct (nth_error m i) as [row|] eqn:Erow; [|discriminate].
  destruct (nth_error row j) as [c|] eqn:Ec; [|discriminate].
  rewrite Forall_forall in Hrange.
  assert (Hrow : row ∈ m) by (apply list_elem_of_In; eapply nth_error_In, Erow).
  specialize (Hrange row Hrow). rewrite Forall_forall in Hrange.
  assert (Hc : c ∈ row) by (apply list_elem_of_In; eapply nth_error_In, Ec).
  specialize (Hrange c Hc). subst c. exact Hrange.
Qed.

Lemma displayed_mask_in_range (m : Matrix) (i j : nat) (v : Q) :
  in_unit_range m ->
  displayed (df_mask m (triu (ones_like m))) i j = Some v ->
  (-1 <= v /\ v <= 1)%Q.
Proof.
  intros Hrange. rewrite displayed_mask.
  destruct (j <? i)%nat; [apply displayed_in_range, Hrange | discriminate].
Qed.

(** C8.  Given a correlation matrix of as many rows and columns as there
    are numeric columns, with its numbers in [-1, 1], and, when there are
    more than two columns, leaves that are positions of the matrix, the
    builder returns a figure in which every cell on or above the diagonal
    is masked and every displayed value lies in [-1, 1]; with fewer than
    three columns the leaves are not asked for and the matrix is masked in
    its original order. *)
Theorem corr_heatmap_spec (L : StatsLib) (df : Table) (numeric_cols : list string)
    (method : Method) :
  let n := List.length numeric_cols in
  let c := corr L df numeric_cols method in
  square n c ->
  in_unit_range c ->
  ((2 < n)%nat ->
     exists order, dendrogram_leaves L c = Ok order
                   /\ Forall (fun i => (i < n)%nat) order) ->
  exists fig,
    corr_heatmap L df numeric_cols method = Ok fig
    /\ (forall i j, (i <= j)%nat -> displayed (z fig) i j = None)
    /\ (forall i j v, displayed (z fig) i j = Some v -> (-1 <= v /\ v <= 1)%Q)
    /\ ((n < 3)%nat ->
          z fig = df_mask c (triu (ones_like c))
          /\ forall i j, (j < i)%nat -> displayed (z fig) i j = displayed c i j).
Proof.
  intros n c Hsq Hrange Hleaves. unfold corr_heatmap. fold c. fold n.
  destruct (2 <? n)%nat eqn:Hn.
  - apply Nat.ltb_lt in Hn.
    destruct (Hleaves Hn) as (order & Eo & Hord).
    rewrite Eo. simpl.
    destruct (iloc_Ok n c order Hsq Hrange Hord) as (c' & Ec & Hrange').
    rewrite Ec. simpl. eexists. split; [reflexivity|]. simpl.
    split; [|split].
    + intros i j Hij. rewrite displayed_mask.
      destruct (j <? i)%nat eqn:E; [apply Nat.ltb_lt in E; lia | reflexivity].
    + intros i j v. now apply displayed_mask_in_range.
    + intros Hlt. lia.
  - apply Nat.ltb_ge in Hn. simpl. eexists. split; [reflexivity|]. simpl.
    split; [|split].
    + intros i j Hij. rewrite displayed_mask.
      destruct (j <? i)%nat eqn:E; [apply Nat.ltb_lt in E; lia | reflexivity].
    + intros i j v. now apply displayed_mask_in_range.
    + intros _. split; [reflexivity|].
      intros i j Hji. rewrite displayed_mask.
      apply Nat.ltb_lt in Hji. now rewrite Hji.
Qed.

Lemma corr_heatmap_spec_witness :
  exists fig,
    corr_heatmap sample_lib sample_table num_cols pearson = Ok fig
    /\ (forall i j, (i <= j)%nat -> displayed (z fig) i j = None)
    /\ (forall i j v, displayed (z fig) i j = Some v -> (-1 <= v /\ v <= 1)%Q)
    /\ ((4 < 3)%nat ->
          z fig = df_mask sample_corr (triu (ones_like sample_corr))
          /\ forall i j, (j < i)%nat -> displayed (z fig) i j = displayed sample_corr i j).
Proof.
  apply (corr_heatmap_spec sample_lib sample_table num_cols pearson).
  - split; [reflexivity | repeat constructor].
  - repeat (apply Forall_cons; split); try apply Forall_nil;
      try exact I; split; vm_compute; discriminate.
  - intros _. exists [2; 3; 0; 1]%nat.
    split; [reflexivity | repeat constructor].
Defined.

End HeatmapFacts.

(* ================================================================== *)
(** * Data loader *)
(* ================================================================== *)

Module DataFacts.
Import Data.

(** Run the binds of [Result] on the results that are known. *)
Ltac rsimpl := cbv beta iota delta [mbind mret Result_bind Result_ret].

Lemma read_csv_fecha (fs : Files) (path : string) (raw : Frame) (fecha : list Cell) :
  fs !! path = Some raw -> raw !! "fecha" = Some fecha ->
  read_csv fs path ["fecha"] = Ok raw.
Proof.
  intros Hfs Hf. unfold read_csv. rewrite Hfs. cbn [List.find].
  rewrite bool_decide_eq_false_2; [reflexivity|]. rewrite Hf. discriminate.
Qed.

(** On a file without rows that lacks the week, the [.dt] accessor of
    line 12 raises. *)
Lemma load_data_body_zero_rows (fs : Files) (path : string) (raw : Frame) :
  fs !! path = Some raw -> raw !! "fecha" = Some [] -> raw !! "week" = None ->
  exists msg, load_data_body fs path = Raise (AttributeError msg).
Proof.
  intros Hfs Hf Hw. unfold load_data_body.
  rewrite (read_csv_fecha fs path raw [] Hfs Hf). rsimpl.
  rewrite Hw. unfold getitem. rewrite Hf. rsimpl.
  now eexists.
Qed.

Lemma week_column_spec (fecha : list Cell) :
  List.length (List.map week_cell fecha) = List.length fecha
  /\ forall i d, nth_error fecha i = Some (VDate d) ->
       nth_error (List.map week_cell fecha) i = Some (VInt (IsoCalendar.week d)).
Proof.
  split; [apply List.length_map|].
  intros i d Hi. now rewrite nth_error_map, Hi.
Qed.

Lemma loc_vi_column_spec (home : list Cell) :
  let col := series_map [(VBool true, VStr "Casa"); (VBool false, VStr "Visitante")] home in
  List.length col = List.length home
  /\ forall i b, nth_error home i = Some (VBool b) ->
       nth_error col i = Some (VStr (if b then "Casa" else "Visitante")).
Proof.
  split; [apply List.length_map|].
  intros i b Hi. unfold series_map. rewrite nth_error_map, Hi.
  now destruct b.
Qed.

(** C5.  On a file that has the date column (as [read_csv] demands), whose
    date column has the datetime dtype (the file has rows and its dates
    parsed) when the week is to be derived, and that has [is_home]
    when [loc_vi] is to be derived, the loader returns a frame in which: a
    missing [week] column has been added, cell by cell the ISO week of
    [fecha]; a missing [loc_vi] column has been added, cell by cell
    "Casa" where [is_home] is true and "Visitante" where it is false;
    every column of the file is as it was; and nothing else is added. *)
Theorem load_data_derives_columns (fs : Files) (path : string) (raw : Frame)
    (fecha home : list Cell) :
  fs !! path = Some raw ->
  raw !! "fecha" = Some fecha ->
  (raw !! "week" = None -> is_datetime64 fecha = true) ->
  (raw !! "loc_vi" = None -> raw !! "is_home" = Some home) ->
  exists df,
    load_data_body fs path = Ok df
    /\ (raw !! "week" = None ->
          exists w, df !! "week" = Some w
            /\ List.length w = List.length fecha
            /\ forall i d, nth_error fecha i = Some (VDate d) ->
                 nth_error w i = Some (VInt (IsoCalendar.week d)))
    /\ (raw !! "loc_vi" = None ->
          exists l, df !! "loc_vi" = Some l
            /\ List.length l = List.length home
            /\ forall i b, nth_error home i = Some (VBool b) ->
                 nth_error l i = Some (VStr (if b then "Casa" else "Visitante")))
    /\ (forall c s, raw !! c = Some s -> df !! c = Some s)
    /\ (forall c, c <> "week" -> c <> "loc_vi" -> df !! c = raw !! c).
Proof.
  intros Hfs Hfecha Hdt Hhome. unfold load_data_body.
  rewrite (read_csv_fecha fs path raw fecha Hfs Hfecha). rsimpl.
  destruct (raw !! "week") as [w0|] eqn:Hw; rsimpl.
  - destruct (raw !! "loc_vi") as [l0|] eqn:Hl; rsimpl.
    + exists raw. repeat split; try discriminate; auto.
    + unfold getitem. rewrite (Hhome eq_refl). rsimpl.
      eexists. split; [reflexivity|]. split; [discriminate|]. split; [|split].
      * intros _. eexists. split; [apply lookup_insert_eq|].
        apply loc_vi_column_spec.
      * intros c s Hc. rewrite lookup_insert_ne; [exact Hc | congruence].
      * intros c _ Hc. now rewrite lookup_insert_ne.
  - unfold getitem at 1. rewrite Hfecha. rsimpl.
    unfold dt_isocalendar_week. rewrite (Hdt eq_refl). rsimpl.
    rewrite lookup_insert_ne by discriminate.
    destruct (raw !! "loc_vi") as [l0|] eqn:Hl; rsimpl.
    + eexists. split; [reflexivity|]. split; [|split; [discriminate|split]].
      * intros _. eexists. split; [apply lookup_insert_eq|].
        apply week_column_spec.
      * intros c s Hc. rewrite lookup_insert_ne; [exact Hc | congruence].
      * intros c Hc _. now rewrite lookup_insert_ne.
    + unfold getitem. rewrite lookup_insert_ne by discriminate.
      rewrite (Hhome eq_refl). rsimpl.
      eexists. split; [reflexivity|]. split; [|split; [|split]].
      * intros _. eexists. split.
        { rewrite lookup_insert_ne by discriminate. apply lookup_insert_eq. }
        apply week_column_spec.
      * intros _. eexists. split; [apply lookup_insert_eq|].
        apply loc_vi_column_spec.
      * intros c s Hc. rewrite !lookup_insert_ne; [exact Hc | congruence | congruence].
      * intros c Hc1 Hc2. now rewrite !lookup_insert_ne.
Qed.

Lemma load_data_derives_columns_witness :
  exists df,
    load_data_body sample_files "processed_data.csv" = Ok df
    /\ df !! "week" = Some [VInt 36; VInt 53; VNA]
    /\ df !! "loc_vi" = Some [VStr "Casa"; VStr "Visitante"; VStr "Casa"]
    /\ df !! "sacks_permitidos" = Some [VInt 3; VInt 1; VInt 0].
Proof.
  destruct (load_data_derives_columns sample_files "processed_data.csv" raw_frame
              [VDate (mkDate 2023 9 10); VDate (mkDate 2021 1 3); VNA]
              [VBool true; VBool false; VBool true])
    as (df & E & Hweek & Hloc & Hkeep & _).
  - reflexivity.
  - reflexivity.
  - intros _. reflexivity.
  - intros _. reflexivity.
  - exists df. split; [exact E|].
    assert (E' : load_data_body sample_files "processed_data.csv" = Ok loaded_frame)
      by (vm_compute; reflexivity).
    rewrite E' in E. inversion E; subst df.
    repeat split; reflexivity.
Defined.

(** ** Memoization *)

Lemma load_data_hit (path : string) (w : World) (df : Frame) :
  cache w !! path = Some df -> load_data path w = (Ok df, w).
Proof. intros H. unfold load_data, cache_data. now rewrite H. Qed.

Lemma load_data_stores (path : string) (w w' : World) (df : Frame) :
  load_data path w = (Ok df, w') -> cache w' !! path = Some df.
Proof.
  unfold load_data, cache_data.
  destruct (cache w !! path) as [df0|] eqn:Hc.
  - intros E. inversion E; subst. exact Hc.
  - destruct (load_data_body (files w) path) as [df1|e]; intros E; inversion E; subst.
    simpl. apply lookup_insert_eq.
Qed.

(** The cache only grows. *)
Lemma load_data_cache_mono (path : string) (w w' : World) (r : Result Frame) :
  load_data path w = (r, w') -> cache w ⊆ cache w'.
Proof.
  unfold load_data, cache_data.
  destruct (cache w !! path) as [df0|] eqn:Hc.
  - intros E. now inversion E.
  - destruct (load_data_body (files w) path) as [df1|e]; intros E; inversion E; subst.
    + simpl. now apply insert_subseteq.
    + reflexivity.
Qed.

Lemma later_cache_mono (w w' : World) : later w w' -> cache w ⊆ cache w'.
Proof.
  induction 1 as [w|w1 w2 w3 Hstep _ IH]; [reflexivity|].
  etransitivity; [|exact IH].
  destruct Hstep as [w fs|w path r w' E]; [reflexivity|].
  eapply load_data_cache_mono, E.
Qed.

(** C9.  Once [load_data] has returned a table for a path, every later
    call with that path returns the same table, whatever has happened to
    the files and whatever else has been loaded in between, without
    reading the file; so a derived [week] or [loc_vi] column of it is the
    same in all of them. *)
Theorem load_data_memoized (path : string) (w w1 w2 : World) (df : Frame) :
  load_data path w = (Ok df, w1) ->
  later w1 w2 ->
  load_data path w2 = (Ok df, w2)
  /\ forall df' w3, load_data path w2 = (Ok df', w3) ->
       df' = df /\ df' !! "week" = df !! "week" /\ df' !! "loc_vi" = df !! "loc_vi".
Proof.
  intros Hfirst Hlater.
  assert (Hhit : load_data path w2 = (Ok df, w2)).
  { apply load_data_hit.
    eapply lookup_weaken; [eapply load_data_stores, Hfirst|].
    now apply later_cache_mono. }
  split; [exact Hhit|].
  intros df' w3 E. rewrite Hhit in E. inversion E; subst. auto.
Qed.

Lemma load_data_memoized_witness :
  load_data "processed_data.csv" world0 = (Ok loaded_frame, world1)
  /\ load_data "processed_data.csv" world2 = (Ok loaded_frame, world2).
Proof.
  assert (E : load_data "processed_data.csv" world0 = (Ok loaded_frame, world1))
    by (vm_compute; reflexivity).
  split; [exact E|].
  apply (load_data_memoized "processed_data.csv" world0 world1 world2 loaded_frame E).
  eapply later_step; [apply (step_files world1 ∅) | apply later_now].
Defined.

End DataFacts.

(* ================================================================== *)
(** * The page on an empty outcome table *)
(* ================================================================== *)

Module MainFacts.
Import Main.

Section PageFacts.
Context (L : Heatmap.StatsLib) {SV : SortValues}.

(** C2 (what the code does).  When the outcome table is empty, the
    notice takes the place of the sacks-vs-points scatter only: the box
    builder is still called, on the empty table, and its figure put on the
    page; and, when the heatmap builder returns, the margin builder is
    called on the empty table too, where it raises, so that the run ends
    with its exception and no sixth chart.  One notice is shown, not
    three. *)
Theorem empty_outcome_still_calls_box_and_margin (df_raw : Table) (C : Criteria)
    (method : Heatmap.Method) :
  df_o (df_f df_raw C) (c_resultado C) = [] ->
  let trace := fst (page L df_raw C method) in
  let several := c_all_teams C || (1 <? List.length (team_sel df_raw C))%nat in
  (forall a b c d, Call_scatter_sacks_vs_points a b c d ∉ trace)
  /\ List.filter is_info trace = [St_info no_data]
  /\ Call_box_sacks_distribution [] several ∈ trace
  /\ St_plotly_chart (BoxChart (Plots.box_sacks_distribution [] several)) ∈ trace
  /\ (forall fig,
        Heatmap.corr_heatmap L (df_f df_raw C) Heatmap.num_cols method = Ok fig ->
        List.filter is_box_or_margin_call trace
        = [Call_box_sacks_distribution [] several; Call_scatter_sacks_vs_margin []]
        /\ Plots.scatter_sacks_vs_margin [] = Raise IndexError
        /\ snd (page L df_raw C method) = Raise IndexError
        /\ (forall f, St_plotly_chart (ScatterChart f) ∉ trace)).
Proof.
  intros Hempty trace several.
  assert (Hpre : page_to_heatmap df_raw C method
                 = [St_title "NFL Sacks Analysis – margen ≥ 8 pts"; St_write;
                    St_subheader "1 · Sacks promedio en derrotas";
                    Call_bar_avg_sacks_losses (df_f df_raw C);
                    St_plotly_chart (BarChart (Plots.bar_avg_sacks_losses (df_f df_raw C)));
                    St_subheader "2 · Sacks vs puntos anotados";
                    St_info no_data;
                    St_subheader "3 · Distribución de sacks";
                    Call_box_sacks_distribution [] several;
                    St_plotly_chart (BoxChart (Plots.box_sacks_distribution [] several));
                    St_subheader "4 · Matriz de correlaciones";
                    Call_corr_heatmap (df_f df_raw C) Heatmap.num_cols method]).
  { unfold page_to_heatmap. rewrite Hempty. reflexivity. }
  assert (Hpost : forall fig, page_after_heatmap df_raw C fig
                 = [St_plotly_chart (HeatmapChart fig);
                    St_subheader "5 · Top-10 partidos con más sacks";
                    St_dataframe (top10_table (df_f df_raw C));
                    St_subheader "6 · Sacks vs margen (scatter)";
                    Call_scatter_sacks_vs_margin []]).
  { intros fig. unfold page_after_heatmap. rewrite Hempty. reflexivity. }
  subst trace. unfold page. rewrite Hempty.
  change (Plots.scatter_sacks_vs_margin []) with (@Raise Plots.ScatterFigure IndexError).
  destruct (Heatmap.corr_heatmap L (df_f df_raw C) Heatmap.num_cols method) as [fig|e];
    cbv zeta; cbn [fst snd]; rewrite Hpre; try rewrite Hpost.
  - split; [|split; [reflexivity|split; [|split]]].
    + intros a b c d Hin. cbn [app] in Hin.
      repeat (apply elem_of_cons in Hin as [Hin|Hin]; [discriminate|]).
      inversion Hin.
    + cbn [app]. do 8 apply list_elem_of_further. apply list_elem_of_here.
    + cbn [app]. do 9 apply list_elem_of_further. apply list_elem_of_here.
    + intros fig' _. split; [reflexivity|]. split; [reflexivity|].
      split; [reflexivity|].
      intros f Hin. cbn [app] in Hin.
      repeat (apply elem_of_cons in Hin as [Hin|Hin]; [discriminate|]).
      inversion Hin.
  - split; [|split; [reflexivity|split; [|split]]].
    + intros a b c d Hin.
      repeat (apply elem_of_cons in Hin as [Hin|Hin]; [discriminate|]).
      inversion Hin.
    + do 8 apply list_elem_of_further. apply list_elem_of_here.
    + do 9 apply list_elem_of_further. apply list_elem_of_here.
    + intros fig' Hfig. discriminate Hfig.
Qed.
End PageFacts.

(** On a table of lost games with the outcome selector on "win" the box
    and the margin builders are called on the empty table, and the run
    ends with the exception of the margin builder. *)
Lemma empty_outcome_still_calls_box_and_margin_witness :
  df_o (df_f lost_games win_criteria) "win" = []
  /\ List.filter is_box_or_margin_call
       (fst (page lost_games_lib (SV := merge_sort_values)
               lost_games win_criteria Heatmap.pearson))
     = [Call_box_sacks_distribution [] true; Call_scatter_sacks_vs_margin []]
  /\ snd (page lost_games_lib (SV := merge_sort_values)
            lost_games win_criteria Heatmap.pearson)
     = Raise IndexError.
Proof.
  split; [reflexivity|].
  destruct (Heatmap.corr_heatmap lost_games_lib (df_f lost_games win_criteria)
              Heatmap.num_cols Heatmap.pearson) as [fig|e] eqn:E;
    [|vm_compute in E; discriminate E].
  pose proof (empty_outcome_still_calls_box_and_margin lost_games_lib
                (SV := merge_sort_values) lost_games win_criteria Heatmap.pearson
                eq_refl) as (_ & _ & _ & _ & Hcalls).
  destruct (Hcalls fig E) as (Hfilter & _ & Hend & _).
  split; [exact Hfilter | exact Hend].
Defined.

End MainFacts.

(* ================================================================== *)
(** * Further properties of the filter engine *)
(* ================================================================== *)

Section SelectsMore.
Context {A : Type}.
Implicit Types (P Q : A -> Prop) (l : list A).

Lemma Selects_compose P Q l l1 l2 :
  Selects P l l1 -> Selects Q l1 l2 -> Selects (fun x => P x /\ Q x) l l2.
Proof.
  intros H1. revert l2.
  induction H1 as [|x l l1 HP _ IH|x l l1 HP _ IH]; intros l2 H2.
  - inversion H2; subst. constructor.
  - inversion H2; subst.
    + apply Selects_keep; [tauto | auto].
    + apply Selects_drop; [tauto | auto].
  - apply Selects_drop; [tauto | auto].
Qed.

Lemma Selects_List_filter P (f : A -> bool) l :
  (forall x, f x = true <-> P x) -> Selects P l (List.filter f l).
Proof. intros H. apply Selects_filter. intros x _. apply H. Qed.
End SelectsMore.

Lemma df_o_filter (T : Table) (sel : string) :
  sel <> "all" ->
  df_o T sel = List.filter (fun r => String.eqb (resultado r) sel) T.
Proof.
  intros Hsel. unfold df_o.
  destruct (String.eqb_spec sel "all") as [E|_]; [contradiction|].
  unfold Pandas.eq_str, Pandas.col. rewrite List.map_map. apply boolean_index_map.
Qed.

Lemma df_o_Selects (T : Table) (sel : string) :
  sel <> "all" -> Selects (fun r => resultado r = sel) T (df_o T sel).
Proof.
  intros Hsel. rewrite df_o_filter by exact Hsel.
  apply Selects_List_filter. intros r. apply String.eqb_eq.
Qed.

(** X1.  Moving the minimum-sacks slider up narrows the result: the table
    filtered with the higher threshold is the table filtered with the
    lower one, less its rows under the higher threshold; it is a sublist
    of it. *)
Theorem raising_threshold_narrows (T : Table) (C : Criteria) (m : Z) :
  c_min_sacks C <= m ->
  df_f T (with_min_sacks C m)
  = List.filter (fun r => (m <=? sacks_permitidos r)%Z) (df_f T C)
  /\ sublist (df_f T (with_min_sacks C m)) (df_f T C).
Proof.
  intros Hm.
  assert (E : df_f T (with_min_sacks C m)
              = List.filter (fun r => (m <=? sacks_permitidos r)%Z) (df_f T C)).
  { eapply Selects_functional; [apply df_f_Selects|].
    eapply Selects_ext;
      [|eapply Selects_compose;
        [apply (df_f_Selects T C)
        |apply (Selects_List_filter (fun r => m <= sacks_permitidos r))]].
    - intros r _. unfold passes. simpl. split; [tauto|].
      intros (Hs & Hp & Ht & Hr). repeat split; auto. lia.
    - intros r. apply Z.leb_le. }
  split; [exact E|].
  rewrite E. eapply Selects_sublist, Selects_List_filter.
  intros r. apply Z.leb_le.
Qed.

Lemma raising_threshold_narrows_witness :
  List.map sacks_permitidos (df_f sample_table (with_min_sacks sample_criteria 4)) = [5]
  /\ sublist (df_f sample_table (with_min_sacks sample_criteria 4))
       (df_f sample_table sample_criteria).
Proof.
  destruct (raising_threshold_narrows sample_table sample_criteria 4) as [E Hsub].
  - simpl. lia.
  - split; [rewrite E; reflexivity | exact Hsub].
Defined.

(** X2.  When every row is a win or a loss, the outcome filter splits the
    table in two: the "win" rows and the "loss" rows together are the rows
    of the table, each once. *)
Theorem outcome_filter_partitions (T : Table) :
  (forall r, r ∈ T -> resultado r = "win" \/ resultado r = "loss") ->
  Permutation (df_o T "win" ++ df_o T "loss") T
  /\ (List.length (df_o T "win") + List.length (df_o T "loss"))%nat = List.length T.
Proof.
  intros Hres.
  assert (HP : Permutation (df_o T "win" ++ df_o T "loss") T).
  { rewrite !df_o_filter by discriminate.
    induction T as [|r T IH]; [reflexivity|].
    assert (IH' := IH (fun x Hx => Hres x (list_elem_of_further _ _ _ Hx))).
    simpl. destruct (Hres r (list_elem_of_here _ _)) as [E|E]; rewrite E; simpl.
    - now constructor.
    - rewrite <- Permutation_middle. now constructor. }
  split; [exact HP|].
  rewrite <- (Permutation_length HP). now rewrite List.length_app.
Qed.

Lemma outcome_filter_partitions_witness :
  Permutation (df_o sample_table "win" ++ df_o sample_table "loss") sample_table.
Proof.
  apply (outcome_filter_partitions sample_table).
  intros r Hr.
  repeat (apply elem_of_cons in Hr as [->|Hr]; [simpl; tauto|]).
  inversion Hr.
Defined.

(** X3.  The two filter stages commute: narrowing by outcome after the
    first stage gives the table that the first stage gives on the table
    narrowed by outcome, the team selection being recomputed from the
    table at hand. *)
Theorem filter_stages_commute (T : Table) (C : Criteria) (sel : string) :
  df_o (df_f T C) sel = df_f (df_o T sel) C.
Proof.
  destruct (String.eqb_spec sel "all") as [->|Hsel]; [reflexivity|].
  eapply Selects_functional.
  - eapply Selects_compose; [apply df_f_Selects | apply df_o_Selects, Hsel].
  - eapply Selects_ext;
      [|eapply Selects_compose; [apply df_o_Selects, Hsel | apply df_f_Selects]].
    intros r _. simpl. tauto.
Qed.

(** ** The order of [sorted] *)

Lemma String_leb_cons (x y : ascii) (a b : string) :
  String.leb (String x a) (String y b)
  = match (N_of_ascii x ?= N_of_ascii y)%N with
    | Eq => String.leb a b
    | Lt => true
    | Gt => false
    end.
Proof.
  unfold String.leb. simpl. unfold Ascii.compare.
  now destruct (N_of_ascii x ?= N_of_ascii y)%N.
Qed.

Lemma String_leb_trans (a b c : string) :
  String.leb a b = true -> String.leb b c = true -> String.leb a c = true.
Proof.
  revert b c. induction a as [|x a IH]; intros b c Hab Hbc.
  - now destruct c.
  - destruct b as [|y b]; [discriminate Hab|].
    destruct c as [|z c]; [discriminate Hbc|].
    rewrite String_leb_cons in *.
    destruct (N.compare_spec (N_of_ascii x) (N_of_ascii y)) as [Exy|Lxy|Gxy];
      [| |discriminate Hab];
      destruct (N.compare_spec (N_of_ascii y) (N_of_ascii z)) as [Eyz|Lyz|Gyz];
      try discriminate Hbc;
      destruct (N.compare_spec (N_of_ascii x) (N_of_ascii z)) as [Exz|Lxz|Gxz];
      try reflexivity; try lia.
    eapply IH; eassumption.
Qed.

#[local] Instance str_le_total : Total str_le.
Proof. intros a b. apply String.leb_total. Qed.

#[local] Instance str_le_trans : Transitive str_le.
Proof. intros a b c. apply String_leb_trans. Qed.

Lemma sorted_ascending (l : list string) : StronglySorted str_le (sorted l).
Proof. apply (StronglySorted_merge_sort str_le). Qed.

(** X4.  With the all-teams box ticked the team selection lists every team
    of the table exactly once, in ascending order. *)
Theorem all_teams_selection (T : Table) (C : Criteria) :
  c_all_teams C = true ->
  team_sel T C = Sidebar.team_options T
  /\ NoDup (team_sel T C)
  /\ (forall t, t ∈ team_sel T C <-> exists r, r ∈ T /\ team_abbr r = t)
  /\ StronglySorted str_le (team_sel T C).
Proof.
  intros Hall. unfold team_sel, Sidebar.team_options. rewrite Hall.
  split; [reflexivity|]. split; [apply NoDup_sorted_unique|].
  split; [|apply sorted_ascending].
  intros t. now rewrite elem_of_sorted, elem_of_unique, elem_of_col_iff.
Qed.

Lemma all_teams_selection_witness :
  team_sel sample_table sample_criteria = ["BUF"; "DET"; "KC"]
  /\ NoDup (team_sel sample_table sample_criteria).
Proof.
  destruct (all_teams_selection sample_table sample_criteria eq_refl)
    as (E & Hnd & _).
  split; [rewrite E; reflexivity | exact Hnd].
Defined.

(** X5.  With the phase selection left at its default, every phase of the
    table, the phase predicate excludes no row: the first stage keeps
    exactly the rows that pass the season, team and threshold predicates. *)
Theorem default_phases_exclude_nothing (T : Table) (C : Criteria) :
  c_phase_sel C = Sidebar.phase_options T ->
  Selects (passes_but_phase C) T (df_f T C).
Proof.
  intros Hph. eapply Selects_ext; [|apply df_f_Selects].
  intros r Hr. unfold passes, passes_but_phase. rewrite Hph.
  unfold Sidebar.phase_options. rewrite elem_of_sorted, elem_of_unique.
  pose proof (elem_of_col phase T r Hr). tauto.
Qed.

Lemma default_phases_exclude_nothing_witness :
  Selects (passes_but_phase one_team_criteria) sample_table
    (df_f sample_table one_team_criteria).
Proof.
  apply (default_phases_exclude_nothing sample_table one_team_criteria).
  reflexivity.
Defined.

(* ================================================================== *)
(** * Further properties of the top-10 table *)
(* ================================================================== *)

Section Top10More.
Context {SV : SortValues}.

Let by_sacks (r : GameRecord) : Q := inject_Z (sacks_permitidos r).

Lemma sorted_table_descending (T : Table) :
  StronglySorted (fun x y => sacks_permitidos y <= sacks_permitidos x)
    (sort_values_desc by_sacks T).
Proof.
  pose proof (sort_values_desc_sorted _ by_sacks T) as HS.
  induction HS as [|r l _ IH HF]; constructor; [exact IH|].
  eapply Forall_impl; [exact HF|].
  intros x Hx. unfold by_sacks in Hx. now rewrite <- Zle_Qle in Hx.
Qed.

(** X6.  On any table, ties and short tables included, the top-10 table
    has ten rows or all of them if there are fewer, in descending order of
    sacks allowed, and no row left out allowed more sacks than a row
    shown. *)
Theorem top10_any_table (T : Table) :
  List.length (top10 T) = Nat.min 10 (List.length T)
  /\ StronglySorted (fun x y => sacks_permitidos y <= sacks_permitidos x) (top10 T)
  /\ exists rest,
       Permutation T (top10 T ++ rest)
       /\ forall a b, a ∈ top10 T -> b ∈ rest ->
            sacks_permitidos b <= sacks_permitidos a.
Proof.
  pose proof (sorted_table_descending T) as HS.
  pose proof (sort_values_desc_perm _ by_sacks T) as HP.
  unfold top10, Pandas.head. fold by_sacks.
  rewrite <- (take_drop 10 (sort_values_desc by_sacks T)) in HS.
  apply StronglySorted_app in HS as (Hcross & HS1 & _).
  split; [|split; [exact HS1|]].
  - rewrite List.length_firstn. now rewrite (Permutation_length HP).
  - exists (drop 10 (sort_values_desc by_sacks T)). split.
    + rewrite take_drop. now symmetry.
    + intros a b Ha Hb. now apply Hcross.
Qed.

(** X7.  A table of at most ten rows is shown whole: the top-10 table is a
    rearrangement of all its rows. *)
Theorem top10_small_table (T : Table) :
  (List.length T <= 10)%nat ->
  Permutation (top10 T) T
  /\ List.length (top10_table T) = List.length T.
Proof.
  intros Hlen.
  pose proof (sort_values_desc_perm _ by_sacks T) as HP.
  assert (E : top10 T = sort_values_desc by_sacks T).
  { unfold top10, Pandas.head. fold by_sacks.
    apply firstn_all2. rewrite (Permutation_length HP). exact Hlen. }
  split; [now rewrite E|].
  unfold top10_table. rewrite List.length_map, E. apply Permutation_length, HP.
Qed.
End Top10More.

Lemma top10_small_table_witness :
  Permutation (top10 (SV := merge_sort_values) sample_table) sample_table.
Proof.
  apply (top10_small_table (SV := merge_sort_values) sample_table).
  simpl. lia.
Defined.

(* ================================================================== *)
(** * Further properties of the average-sacks-in-losses bar chart *)
(* ================================================================== *)

Lemma sum_bounds (lo hi : Z) (s : Series Z) :
  Forall (fun x => lo <= x <= hi) s ->
  lo * Z.of_nat (List.length s) <= Plots.sum s <= hi * Z.of_nat (List.length s).
Proof.
  induction 1 as [|x s Hx _ IH]; [simpl; lia|].
  cbn [List.length Plots.sum]. lia.
Qed.

Lemma mean_bounds (lo hi : Z) (s : Series Z) :
  s <> [] ->
  Forall (fun x => lo <= x <= hi) s ->
  (inject_Z lo <= Plots.mean s /\ Plots.mean s <= inject_Z hi)%Q.
Proof.
  intros Hne HF. pose proof (sum_bounds lo hi s HF) as [Hlo Hhi].
  assert (Hn : (0 < inject_Z (Z.of_nat (List.length s)))%Q).
  { change 0%Q with (inject_Z 0). rewrite <- Zlt_Qlt.
    destruct s; [contradiction | simpl; lia]. }
  unfold Plots.mean. rewrite Qred_correct. split.
  - apply Qle_shift_div_l; [exact Hn|].
    rewrite <- inject_Z_mult, <- Zle_Qle. exact Hlo.
  - apply Qle_shift_div_r; [exact Hn|].
    rewrite <- inject_Z_mult, <- Zle_Qle. exact Hhi.
Qed.

Lemma loss_filter_idempotent (df : Table) :
  List.filter (fun r => String.eqb (resultado r) "loss")
    (List.filter (fun r => String.eqb (resultado r) "loss") df)
  = List.filter (fun r => String.eqb (resultado r) "loss") df.
Proof.
  apply filter_all_true. intros r Hr. now apply elem_of_List_filter in Hr.
Qed.

Section BarMore.
Context {SV : SortValues}.

Lemma bars_teams (df : Table) (t : string) :
  t ∈ List.map fst (Plots.bars (Plots.bar_avg_sacks_losses df)) <->
  exists r, r ∈ df /\ resultado r = "loss" /\ team_abbr r = t.
Proof.
  rewrite (Permutation_map fst (bars_Permutation df)), groupby_keys.
  rewrite elem_of_sorted, elem_of_unique, elem_of_col_iff.
  split; intros (r & Hr & Ht); exists r.
  - apply elem_of_List_filter in Hr as [Hr Hl]. apply String.eqb_eq in Hl. tauto.
  - split; [|tauto]. apply elem_of_List_filter. rewrite String.eqb_eq. tauto.
Qed.

Lemma bars_nil_of_no_loss (df : Table) :
  (forall r, r ∈ df -> resultado r <> "loss") ->
  Plots.bars (Plots.bar_avg_sacks_losses df) = [].
Proof.
  intros Hno.
  destruct (Plots.bars (Plots.bar_avg_sacks_losses df)) as [|[t v] bs] eqn:E;
    [reflexivity|].
  assert (Hin : t ∈ List.map fst (Plots.bars (Plots.bar_avg_sacks_losses df)))
    by (rewrite E; simpl; constructor).
  apply bars_teams in Hin as (r & Hr & Hloss & _).
  now destruct (Hno r Hr).
Qed.

(** X8.  The bar chart is empty exactly when the table has no lost game:
    an empty table or a table of wins gives a chart without bars. *)
Theorem no_losses_no_bars (df : Table) :
  Plots.bars (Plots.bar_avg_sacks_losses df) = []
  <-> forall r, r ∈ df -> resultado r <> "loss".
Proof.
  split.
  - intros E r Hr Hloss.
    assert (Hin : team_abbr r ∈ List.map fst (Plots.bars (Plots.bar_avg_sacks_losses df)))
      by (apply bars_teams; eauto).
    rewrite E in Hin. inversion Hin.
  - apply bars_nil_of_no_loss.
Qed.

(** X9.  The value of every bar lies between the least and the greatest
    number of sacks allowed in a lost game: bounds on [sacks_permitidos]
    over the loss rows are bounds on the bars. *)
Theorem bar_values_within_bounds (df : Table) (lo hi : Z) :
  (forall r, r ∈ df -> resultado r = "loss" ->
     lo <= sacks_permitidos r <= hi) ->
  forall t v, (t, v) ∈ Plots.bars (Plots.bar_avg_sacks_losses df) ->
    (inject_Z lo <= v /\ v <= inject_Z hi)%Q.
Proof.
  intros Hb t v Hin. rewrite (bars_Permutation df) in Hin.
  apply elem_of_groupby in Hin as [Ht ->].
  apply elem_of_col_iff in Ht as (r & Hr & Hteam).
  apply mean_bounds.
  - unfold Pandas.col, Plots.group.
    assert (Hg : r ∈ List.filter (fun r0 => String.eqb (team_abbr r0) t)
                   (List.filter (fun r0 => String.eqb (resultado r0) "loss") df)).
    { apply elem_of_List_filter. split; [exact Hr | now apply String.eqb_eq]. }
    intros E. apply (elem_of_map sacks_permitidos) in Hg. rewrite E in Hg. inversion Hg.
  - unfold Pandas.col, Plots.group. apply List.Forall_map.
    rewrite Forall_forall. intros x Hx.
    apply elem_of_List_filter in Hx as [Hx _].
    apply elem_of_List_filter in Hx as [Hx Hl].
    apply Hb; [exact Hx | now apply String.eqb_eq].
Qed.

(** X10.  Won games play no part in the bar chart: the chart of a table is
    the chart of its lost games, and the chart of its won games has no
    bar. *)
Theorem bar_chart_ignores_wins (df : Table) :
  Plots.bar_avg_sacks_losses (df_o df "loss") = Plots.bar_avg_sacks_losses df
  /\ Plots.bars (Plots.bar_avg_sacks_losses (df_o df "win")) = [].
Proof.
  split.
  - unfold Plots.bar_avg_sacks_losses.
    rewrite !loss_df_filter, df_o_filter by discriminate.
    now rewrite loss_filter_idempotent.
  - apply bars_nil_of_no_loss.
    intros r Hr. rewrite df_o_filter in Hr by discriminate.
    apply elem_of_List_filter in Hr as [_ Hw]. apply String.eqb_eq in Hw.
    rewrite Hw. discriminate.
Qed.
End BarMore.

Lemma bar_values_within_bounds_witness :
  ("BUF", 5%Q) ∈ Plots.bars (Plots.bar_avg_sacks_losses (SV := merge_sort_values) sample_table)
  /\ (inject_Z 3 <= 5 /\ 5 <= inject_Z 5)%Q.
Proof.
  assert (Hin : ("BUF", 5%Q)
                ∈ Plots.bars (Plots.bar_avg_sacks_losses (SV := merge_sort_values)
                                sample_table))
    by (vm_compute; apply list_elem_of_here).
  split; [exact Hin|].
  apply (bar_values_within_bounds (SV := merge_sort_values) sample_table 3 5)
    with (t := "BUF"); [|exact Hin].
  intros r Hr Hloss.
  repeat (apply elem_of_cons in Hr as [->|Hr]; [simpl in *; try discriminate; lia|]).
  inversion Hr.
Defined.

(* ================================================================== *)
(** * Further properties of the correlation heatmap *)
(* ================================================================== *)

Module HeatmapMore.
Import Heatmap.

(** ** Positions *)

Lemma take_positions_nth {A} (order : list nat) (l r : list A) :
  take_positions order l = Ok r ->
  forall i a, nth_error order i = Some a ->
    nth_error r i = nth_error l a /\ is_Some (nth_error l a).
Proof.
  revert r. induction order as [|i0 order IH]; intros r E i a Hi.
  - now destruct i.
  - simpl in E. destruct (nth_error l i0) as [x|] eqn:Ex; [|discriminate E].
    destruct (take_positions order l) as [rest|e]; [|discriminate E].
    inversion E; subst r.
    destruct i as [|i]; simpl in Hi |- *.
    + inversion Hi; subst. rewrite Ex. eauto.
    + eapply IH; eauto.
Qed.

Lemma take_positions_length {A} (order : list nat) (l r : list A) :
  take_positions order l = Ok r -> List.length r = List.length order.
Proof.
  revert r. induction order as [|i0 order IH]; intros r E; simpl in E.
  - now inversion E.
  - destruct (nth_error l i0); [|discriminate E].
    destruct (take_positions order l) as [rest|e]; [|discriminate E].
    inversion E; subst r. simpl. f_equal. now apply IH.
Qed.

Lemma take_positions_out_of_range {A} (order : list nat) (l : list A) (i : nat) :
  i ∈ order -> (List.length l <= i)%nat ->
  take_positions order l = Raise IndexError.
Proof.
  intros Hin Hi. induction order as [|i0 order IH]; [inversion Hin|].
  simpl. destruct (nth_error l i0) as [x|] eqn:Ex; [|reflexivity].
  apply elem_of_cons in Hin as [->|Hin].
  - apply nth_error_None in Hi. congruence.
  - now rewrite (IH Hin).
Qed.

Lemma each_row_nth {A B} (f : A -> Result B) (m : list A) (m' : list B) :
  each_row f m = Ok m' ->
  List.length m' = List.length m
  /\ forall i row, nth_error m i = Some row ->
       exists row', f row = Ok row' /\ nth_error m' i = Some row'.
Proof.
  revert m'. induction m as [|row0 m IH]; intros m' E; simpl in E.
  - inversion E. split; [reflexivity|]. intros i row Hi. now destruct i.
  - destruct (f row0) as [row0'|e] eqn:E0; [|discriminate E].
    destruct (each_row f m) as [rest|e]; [|discriminate E].
    inversion E; subst m'. destruct (IH rest eq_refl) as [Hlen Hnth].
    split; [simpl; now rewrite Hlen|].
    intros i row Hi. destruct i as [|i]; simpl in Hi |- *.
    + inversion Hi; subst. eauto.
    + now apply Hnth.
Qed.

Lemma each_row_total {A B} (f : A -> Result B) (m : list A) :
  Forall (fun row => exists row', f row = Ok row') m ->
  exists m', each_row f m = Ok m'.
Proof.
  induction 1 as [|row m (row' & E) _ (m' & Em)]; simpl.
  - now exists [].
  - rewrite E. simpl. rewrite Em. now eexists.
Qed.

Lemma take_positions_total {A} (order : list nat) (l : list A) :
  Forall (fun i => (i < List.length l)%nat) order ->
  exists r, take_positions order l = Ok r.
Proof.
  induction 1 as [|i order Hi _ (r & E)]; simpl.
  - now exists [].
  - destruct (nth_error l i) as [x|] eqn:Ex.
    + rewrite E. now eexists.
    + apply nth_error_None in Ex. lia.
Qed.

(** [iloc] returns on a square matrix and positions of it. *)
Lemma iloc_total (n : nat) (m : Matrix) (order : list nat) :
  square n m -> Forall (fun i => (i < n)%nat) order ->
  exists m', iloc m order = Ok m'.
Proof.
  intros [Hrows Hcols] Hord. unfold iloc.
  destruct (HeatmapFacts.take_positions_Ok order m) as (rows & E & _ & Hin);
    [now rewrite Hrows|].
  rewrite E. simpl. apply each_row_total.
  rewrite Forall_forall in Hcols |- *. intros row Hrow.
  apply take_positions_total. now rewrite (Hcols row (Hin row Hrow)).
Qed.

(** Cell (i, j) of the reordered matrix is cell (order[i], order[j]). *)
Lemma iloc_displayed (m m' : Matrix) (order : list nat) (i j a b : nat) :
  iloc m order = Ok m' ->
  nth_error order i = Some a -> nth_error order j = Some b ->
  displayed m' i j = displayed m a b.
Proof.
  unfold iloc. intros E Hi Hj.
  destruct (take_positions order m) as [rows|e] eqn:Erows; [|discriminate E].
  simpl in E.
  destruct (take_positions_nth order m rows Erows i a Hi) as [Hrow [row Hrow']].
  rewrite Hrow' in Hrow.
  destruct (each_row_nth _ _ _ E) as [_ Hnth].
  destruct (Hnth i row Hrow) as (row' & Erow' & Hm').
  destruct (take_positions_nth order row row' Erow' j b Hj) as [Hcell _].
  unfold displayed. now rewrite Hm', Hrow', Hcell.
Qed.

Lemma iloc_shape (m m' : Matrix) (order : list nat) :
  iloc m order = Ok m' -> square (List.length order) m'.
Proof.
  unfold iloc. intros E.
  destruct (take_positions order m) as [rows|e] eqn:Erows; [|discriminate E].
  simpl in E. destruct (each_row_nth _ _ _ E) as [Hlen Hnth].
  split; [rewrite Hlen; eapply take_positions_length, Erows|].
  rewrite Forall_forall. intros row' Hrow'.
  apply list_elem_of_In, In_nth_error in Hrow' as [i Hi].
  assert (Hlt : (i < List.length rows)%nat).
  { rewrite <- Hlen. apply nth_error_Some. congruence. }
  destruct (nth_error rows i) as [row|] eqn:Erow;
    [|apply nth_error_None in Erow; lia].
  destruct (Hnth i row Erow) as (row2 & Erow2 & Hi2).
  rewrite Hi in Hi2. inversion Hi2; subst row2.
  eapply take_positions_length, Erow2.
Qed.

(** ** The mask keeps the shape *)

Lemma mask_row_length (row : list (option Q)) (i j : nat) :
  List.length (mask_row row (triu_row i j (List.map (fun _ => true) row)))
  = List.length row.
Proof.
  revert j. induction row as [|v row IH]; intros j; simpl; [reflexivity|].
  now rewrite IH.
Qed.

Lemma df_mask_length (m : Matrix) (k : nat) :
  List.length (df_mask m (triu_from k (ones_like m))) = List.length m.
Proof.
  revert k. induction m as [|row m IH]; intros k; simpl; [reflexivity|].
  unfold ones_like in IH. now rewrite IH.
Qed.

Lemma df_mask_row_lengths (n : nat) (m : Matrix) (k : nat) :
  Forall (fun row => List.length row = n) m ->
  Forall (fun row => List.length row = n) (df_mask m (triu_from k (ones_like m))).
Proof.
  intros HF. revert k. induction HF as [|row m Hrow _ IH]; intros k; simpl.
  - constructor.
  - constructor; [now rewrite mask_row_length | apply IH].
Qed.

Lemma df_mask_shape (n : nat) (m : Matrix) :
  square n m -> square n (df_mask m (triu (ones_like m))).
Proof.
  intros [Hrows Hcols]. split.
  - unfold triu. now rewrite df_mask_length.
  - now apply df_mask_row_lengths.
Qed.

Section Builder.
Context (L : StatsLib) (df : Table) (numeric_cols : list string) (method : Method).

Let n := List.length numeric_cols.
Let c := corr L df numeric_cols method.

Lemma corr_heatmap_reordered (order : list nat) (c' : Matrix) :
  (2 < n)%nat ->
  dendrogram_leaves L c = Ok order ->
  iloc c order = Ok c' ->
  exists fig, corr_heatmap L df numeric_cols method = Ok fig
              /\ z fig = df_mask c' (triu (ones_like c')).
Proof.
  intros Hn Eo Ec. unfold corr_heatmap. fold c. fold n.
  apply Nat.ltb_lt in Hn. rewrite Hn, Eo. simpl. rewrite Ec. simpl.
  eexists. split; reflexivity.
Qed.

(** X11.  With more than two columns, on a square correlation matrix and
    leaves that are positions of it, the figure shows below the diagonal
    the correlations in leaf order: cell (i, j) with j < i holds the
    correlation of the columns at leaves i and j, and the other cells are
    masked. *)
Theorem heatmap_cells_follow_leaves (order : list nat) :
  (2 < n)%nat ->
  square n c ->
  dendrogram_leaves L c = Ok order ->
  Forall (fun i => (i < n)%nat) order ->
  exists fig,
    corr_heatmap L df numeric_cols method = Ok fig
    /\ forall i j a b,
         nth_error order i = Some a -> nth_error order j = Some b ->
         displayed (z fig) i j = if (j <? i)%nat then displayed c a b else None.
Proof.
  intros Hn Hsq Eo Hord.
  destruct (iloc_total n c order Hsq Hord) as (c' & Ec).
  destruct (corr_heatmap_reordered order c' Hn Eo Ec) as (fig & Efig & Ez).
  exists fig. split; [exact Efig|].
  intros i j a b Hi Hj. rewrite Ez, HeatmapFacts.displayed_mask.
  destruct (j <? i)%nat; [|reflexivity].
  eapply iloc_displayed; eauto.
Qed.

(** X12.  What makes the builder raise and what does not: with more than
    two columns an exception of the clustering is the builder's exception
    and a leaf that is no row of the matrix gives an [IndexError]; with two
    columns or fewer the builder returns whatever the libraries would do. *)
Theorem heatmap_failures :
  ((2 < n)%nat ->
     (forall e, dendrogram_leaves L c = Raise e ->
        corr_heatmap L df numeric_cols method = Raise e)
     /\ (forall order i, dendrogram_leaves L c = Ok order ->
           i ∈ order -> (List.length c <= i)%nat ->
           corr_heatmap L df numeric_cols method = Raise IndexError))
  /\ ((n <= 2)%nat ->
        exists fig, corr_heatmap L df numeric_cols method = Ok fig
                    /\ z fig = df_mask c (triu (ones_like c))).
Proof.
  split.
  - intros Hn. apply Nat.ltb_lt in Hn. split.
    + intros e Ee. unfold corr_heatmap. fold c. fold n. now rewrite Hn, Ee.
    + intros order i Eo Hin Hi. unfold corr_heatmap. fold c. fold n.
      rewrite Hn, Eo. simpl. unfold iloc.
      now rewrite (take_positions_out_of_range order c i Hin Hi).
  - intros Hn. apply Nat.ltb_ge in Hn.
    unfold corr_heatmap. fold c. fold n. rewrite Hn. simpl.
    eexists. split; reflexivity.
Qed.

(** X13.  With more than two columns, on a square and symmetric
    correlation matrix and leaves that are a rearrangement of its
    positions, reordering and masking lose no pair and show none twice:
    for two distinct columns there is exactly one cell below the diagonal
    that sits at their two leaves, and it holds their correlation. *)
Theorem heatmap_shows_each_pair_once (order : list nat) :
  (2 < n)%nat ->
  square n c ->
  (forall a b, (a < n)%nat -> (b < n)%nat -> displayed c a b = displayed c b a) ->
  dendrogram_leaves L c = Ok order ->
  Permutation order (seq 0 n) ->
  exists fig,
    corr_heatmap L df numeric_cols method = Ok fig
    /\ forall a b, (a < n)%nat -> (b < n)%nat -> a <> b ->
         exists i j,
           (j < i < n)%nat
           /\ displayed (z fig) i j = displayed c a b
           /\ ((nth_error order i = Some a /\ nth_error order j = Some b)
               \/ (nth_error order i = Some b /\ nth_error order j = Some a))
           /\ forall i' j',
                (j' < i')%nat ->
                (nth_error order i' = Some a /\ nth_error order j' = Some b)
                \/ (nth_error order i' = Some b /\ nth_error order j' = Some a) ->
                i' = i /\ j' = j.
Proof.
  intros Hn Hsq Hsym Eo Hperm.
  assert (Hlen : List.length order = n).
  { rewrite (Permutation_length Hperm). apply List.length_seq. }
  assert (Hord : Forall (fun i => (i < n)%nat) order).
  { rewrite Forall_forall. intros i Hi. rewrite Hperm in Hi.
    apply list_elem_of_In, in_seq in Hi. lia. }
  assert (Hnd : List.NoDup order).
  { eapply Permutation_NoDup; [symmetry; exact Hperm | apply seq_NoDup]. }
  assert (Hinj : forall i j x, nth_error order i = Some x ->
                               nth_error order j = Some x -> i = j).
  { intros i j x Hi Hj. rewrite NoDup_nth_error in Hnd. apply Hnd.
    - apply nth_error_Some. congruence.
    - congruence. }
  assert (Hpos : forall a, (a < n)%nat -> exists p, nth_error order p = Some a).
  { intros a Ha. apply In_nth_error. eapply Permutation_in; [symmetry; exact Hperm|].
    apply in_seq. lia. }
  assert (Hlt : forall p x, nth_error order p = Some x -> (p < n)%nat).
  { intros p x Hp. rewrite <- Hlen. apply nth_error_Some. congruence. }
  destruct (iloc_total n c order Hsq Hord) as (c' & Ec).
  destruct (corr_heatmap_reordered order c' Hn Eo Ec) as (fig & Efig & Ez).
  exists fig. split; [exact Efig|].
  intros a b Ha Hb Hab.
  destruct (Hpos a Ha) as [pa Hpa]. destruct (Hpos b Hb) as [pb Hpb].
  assert (Hne : pa <> pb) by (intros ->; congruence).
  assert (Hcell : forall i j x y, nth_error order i = Some x ->
                    nth_error order j = Some y -> (j < i)%nat ->
                    displayed (z fig) i j = displayed c x y).
  { intros i j x y Hi Hj Hji. rewrite Ez, HeatmapFacts.displayed_mask.
    apply Nat.ltb_lt in Hji. rewrite Hji. eapply iloc_displayed; eauto. }
  destruct (Nat.lt_ge_cases pb pa) as [Hba|Hba'].
  - exists pa, pb. split; [split; [exact Hba | eapply Hlt, Hpa]|].
    split; [eapply Hcell; eauto|]. split; [left; tauto|].
    intros i' j' Hji [[Hi' Hj']|[Hi' Hj']].
    + split; eapply Hinj; eauto.
    + assert (i' = pb) by (eapply Hinj; eauto).
      assert (j' = pa) by (eapply Hinj; eauto). lia.
  - assert (Hab' : (pa < pb)%nat) by lia.
    exists pb, pa. split; [split; [exact Hab' | eapply Hlt, Hpb]|].
    split; [rewrite (Hcell pb pa b a Hpb Hpa Hab'); now apply Hsym|].
    split; [right; tauto|].
    intros i' j' Hji [[Hi' Hj']|[Hi' Hj']].
    + assert (i' = pa) by (eapply Hinj; eauto).
      assert (j' = pb) by (eapply Hinj; eauto). lia.
    + split; eapply Hinj; eauto.
Qed.

(** X14.  The figure's matrix has the shape of the correlation matrix: on a
    square matrix and, with more than two columns, as many leaves as
    columns, all positions of it, the builder returns an n by n matrix. *)
Theorem heatmap_keeps_shape :
  square n c ->
  ((2 < n)%nat ->
     exists order, dendrogram_leaves L c = Ok order
                   /\ List.length order = n
                   /\ Forall (fun i => (i < n)%nat) order) ->
  exists fig, corr_heatmap L df numeric_cols method = Ok fig /\ square n (z fig).
Proof.
  intros Hsq Hleaves.
  destruct (Nat.lt_ge_cases 2 n) as [Hn|Hn].
  - destruct (Hleaves Hn) as (order & Eo & Hlen & Hord).
    destruct (iloc_total n c order Hsq Hord) as (c' & Ec).
    destruct (corr_heatmap_reordered order c' Hn Eo Ec) as (fig & Efig & Ez).
    exists fig. split; [exact Efig|]. rewrite Ez.
    apply df_mask_shape. rewrite <- Hlen. eapply iloc_shape, Ec.
  - unfold corr_heatmap. fold c. fold n.
    apply Nat.ltb_ge in Hn. rewrite Hn. simpl.
    eexists. split; [reflexivity|]. simpl. now apply df_mask_shape.
Qed.
End Builder.

Lemma sample_corr_square : square 4 sample_corr.
Proof. split; [reflexivity | repeat constructor]. Qed.

Lemma heatmap_cells_follow_leaves_witness :
  exists fig,
    corr_heatmap sample_lib sample_table num_cols pearson = Ok fig
    /\ displayed (z fig) 1 0 = Some (81 # 100)%Q
    /\ displayed (z fig) 0 1 = None.
Proof.
  destruct (heatmap_cells_follow_leaves sample_lib sample_table num_cols pearson
              [2; 3; 0; 1]%nat) as (fig & E & Hcells).
  - simpl. lia.
  - exact sample_corr_square.
  - reflexivity.
  - repeat constructor.
  - exists fig. split; [exact E|]. split.
    + apply (Hcells 1 0 3 2)%nat; reflexivity.
    + apply (Hcells 0 1 2 3)%nat; reflexivity.
Defined.

Lemma heatmap_failures_witness :
  corr_heatmap
    {| corr := fun _ _ _ => sample_corr;
       dendrogram_leaves := fun _ => Ok [2; 7; 0; 1]%nat |}
    sample_table num_cols pearson
  = Raise IndexError.
Proof.
  eapply (heatmap_failures _ sample_table num_cols pearson).
  - simpl. lia.
  - reflexivity.
  - apply list_elem_of_further, list_elem_of_here.
  - simpl. lia.
Defined.

Lemma heatmap_shows_each_pair_once_witness :
  exists fig,
    corr_heatmap sample_lib sample_table num_cols pearson = Ok fig
    /\ exists i j, (j < i < 4)%nat
                   /\ displayed (z fig) i j = displayed sample_corr 0 3.
Proof.
  destruct (heatmap_shows_each_pair_once sample_lib sample_table num_cols pearson
              [2; 3; 0; 1]%nat) as (fig & E & Hpairs).
  - simpl. lia.
  - exact sample_corr_square.
  - intros a b Ha Hb. simpl in Ha, Hb.
    destruct a as [|[|[|[|a]]]]; [| | | |lia];
      destruct b as [|[|[|[|b]]]]; try lia; reflexivity.
  - reflexivity.
  - simpl. apply Permutation_sym.
    apply (perm_trans (l' := [2; 3; 0; 1]%nat)); [|reflexivity].
    change [0; 1; 2; 3]%nat with ([0; 1] ++ [2; 3])%nat.
    change [2; 3; 0; 1]%nat with ([2; 3] ++ [0; 1])%nat.
    apply Permutation_app_comm.
  - exists fig. split; [exact E|].
    destruct (Hpairs 0 3)%nat as (i & j & Hij & Hcell & _); [simpl; lia..|lia|].
    exists i, j. simpl in Hij. tauto.
Defined.

Lemma heatmap_keeps_shape_witness :
  exists fig,
    corr_heatmap sample_lib sample_table num_cols pearson = Ok fig
    /\ square 4 (z fig).
Proof.
  apply (heatmap_keeps_shape sample_lib sample_table num_cols pearson).
  - exact sample_corr_square.
  - intros _. exists [2; 3; 0; 1]%nat.
    split; [reflexivity|]. split; [reflexivity | repeat constructor].
Defined.

End HeatmapMore.

(* ================================================================== *)
(** * Further properties of the data loader *)
(* ================================================================== *)

Module DataMore.
Import Data DataFacts DataSamples.

Ltac rsimpl_in H := cbv beta iota delta [mbind mret Result_bind Result_ret] in H.

(** The two derivation steps of [load_data_body], on the frame read. *)
Lemma load_data_body_read (fs : Files) (path : string) (raw : Frame)
    (fecha : list Cell) :
  fs !! path = Some raw -> raw !! "fecha" = Some fecha ->
  load_data_body fs path
  = (df ← match raw !! "week" with
          | None =>
              w ← dt_isocalendar_week fecha;
              mret (<["week" := w]> raw)
          | Some _ => mret raw
          end;
     match df !! "loc_vi" with
     | None =>
         home ← getitem df "is_home";
         mret (<["loc_vi" :=
                  series_map [(VBool true, VStr "Casa");
                              (VBool false, VStr "Visitante")] home]> df)
     | Some _ => mret df
     end).
Proof.
  intros Hfs Hfecha. unfold load_data_body.
  rewrite (read_csv_fecha fs path raw fecha Hfs Hfecha). rsimpl.
  destruct (raw !! "week") as [w0|] eqn:Hw.
  - rsimpl. now destruct (match raw !! "loc_vi" with Some _ => _ | None => _ end).
  - unfold getitem at 1. rewrite Hfecha. rsimpl.
    destruct (dt_isocalendar_week fecha) as [w|e]; [|reflexivity].
    now destruct (match <["week" := w]> raw !! "loc_vi" with Some _ => _ | None => _ end).
Qed.

Lemma read_csv_no_fecha (fs : Files) (path : string) (raw : Frame) :
  fs !! path = Some raw -> raw !! "fecha" = None ->
  exists msg, read_csv fs path ["fecha"] = Raise (ValueError msg).
Proof.
  intros Hfs Hf. unfold read_csv. rewrite Hfs. cbn [List.find].
  rewrite bool_decide_eq_true_2 by exact Hf. now eexists.
Qed.

(** X15.  When the loader raises: a missing file gives
    [FileNotFoundError]; a file without the [fecha] column a [ValueError];
    a [fecha] column without the datetime dtype (dates that did not parse,
    or a file without rows), when the week is to be derived, an
    [AttributeError]; and a file without [is_home], when [loc_vi] is to be
    derived and the week step has passed (the week is there, or [fecha]
    has the datetime dtype), the [KeyError] of [is_home]. *)
Theorem load_data_body_errors (fs : Files) (path : string) :
  (fs !! path = None ->
     load_data_body fs path = Raise (FileNotFoundError path))
  /\ (forall raw,
        fs !! path = Some raw -> raw !! "fecha" = None ->
        exists msg, load_data_body fs path = Raise (ValueError msg))
  /\ (forall raw fecha,
        fs !! path = Some raw -> raw !! "fecha" = Some fecha ->
        raw !! "week" = None -> is_datetime64 fecha = false ->
        exists msg, load_data_body fs path = Raise (AttributeError msg))
  /\ (forall raw fecha,
        fs !! path = Some raw -> raw !! "fecha" = Some fecha ->
        (is_Some (raw !! "week") \/ is_datetime64 fecha = true) ->
        raw !! "loc_vi" = None -> raw !! "is_home" = None ->
        load_data_body fs path = Raise (KeyError "is_home")).
Proof.
  split; [|split; [|split]].
  - intros Hfs. unfold load_data_body, read_csv. now rewrite Hfs.
  - intros raw Hfs Hf. unfold load_data_body.
    destruct (read_csv_no_fecha fs path raw Hfs Hf) as [msg E].
    rewrite E. now exists msg.
  - intros raw fecha Hfs Hf Hw Hdt.
    rewrite (load_data_body_read fs path raw fecha Hfs Hf), Hw.
    unfold dt_isocalendar_week. rewrite Hdt. now eexists.
  - intros raw fecha Hfs Hf Hweek Hl Hh.
    rewrite (load_data_body_read fs path raw fecha Hfs Hf).
    destruct (raw !! "week") as [w0|] eqn:Hw.
    + rsimpl. rewrite Hl. unfold getitem. now rewrite Hh.
    + destruct Hweek as [[w0 Hw0]|Hdt]; [discriminate Hw0|].
      unfold dt_isocalendar_week. rewrite Hdt. rsimpl.
      rewrite lookup_insert_ne by discriminate. rewrite Hl.
      unfold getitem. rewrite lookup_insert_ne by discriminate.
      now rewrite Hh.
Qed.

Lemma load_data_body_errors_witness :
  load_data_body broken_files "missing.csv" = Raise (FileNotFoundError "missing.csv")
  /\ (exists msg, load_data_body broken_files "no_fecha.csv" = Raise (ValueError msg))
  /\ (exists msg, load_data_body broken_files "text_dates.csv" = Raise (AttributeError msg))
  /\ (exists msg, load_data_body broken_files "zero_rows.csv" = Raise (AttributeError msg))
  /\ load_data_body broken_files "no_home.csv" = Raise (KeyError "is_home").
Proof.
  split; [|split; [|split; [|split]]].
  - apply (load_data_body_errors broken_files "missing.csv"). reflexivity.
  - apply (load_data_body_errors broken_files "no_fecha.csv" ) with (raw := ∅);
      reflexivity.
  - apply (load_data_body_errors broken_files "text_dates.csv")
      with (raw := text_dates_frame) (fecha := [VStr "next sunday"]); reflexivity.
  - apply (load_data_body_errors broken_files "zero_rows.csv")
      with (raw := zero_rows_frame) (fecha := []); reflexivity.
  - apply (load_data_body_errors broken_files "no_home.csv")
      with (raw := no_home_frame) (fecha := [VDate (mkDate 2023 9 10)]);
      try reflexivity.
    left. now exists [VInt 36].
Defined.

(** What a returned frame is made of. *)
Lemma load_data_body_Ok_inv (fs : Files) (path : string) (df : Frame) :
  load_data_body fs path = Ok df ->
  exists raw fecha,
    fs !! path = Some raw
    /\ raw !! "fecha" = Some fecha
    /\ has_derived_columns df
    /\ (forall c s, df !! c = Some s ->
          raw !! c = Some s
          \/ (c = "week" /\ List.length s = List.length fecha)
          \/ (c = "loc_vi" /\ exists home, raw !! "is_home" = Some home
                                           /\ List.length s = List.length home)).
Proof.
  intros E.
  destruct (fs !! path) as [raw|] eqn:Hfs;
    [|unfold load_data_body, read_csv in E; rewrite Hfs in E; discriminate E].
  destruct (raw !! "fecha") as [fecha|] eqn:Hf;
    [|destruct (read_csv_no_fecha fs path raw Hfs Hf) as [msg Em];
      unfold load_data_body in E; rewrite Em in E; discriminate E].
  exists raw, fecha. split; [reflexivity|]. split; [exact Hf|].
  rewrite (load_data_body_read fs path raw fecha Hfs Hf) in E.
  destruct (raw !! "week") as [w0|] eqn:Hw.
  - rsimpl_in E. destruct (raw !! "loc_vi") as [l0|] eqn:Hl.
    + inversion E; subst df. unfold has_derived_columns.
      rewrite Hw, Hl, Hf. repeat split; eauto.
    + unfold getitem in E. destruct (raw !! "is_home") as [home|] eqn:Hh;
        [|discriminate E].
      rsimpl_in E. inversion E; subst df. split.
      * unfold has_derived_columns.
        rewrite lookup_insert_eq, !lookup_insert_ne, Hw, Hf by discriminate.
        repeat split; eauto.
      * intros c s Hc. destruct (decide (c = "loc_vi")) as [->|Hne].
        -- rewrite lookup_insert_eq in Hc. inversion Hc; subst s.
           right. right. split; [reflexivity|]. exists home.
           split; [reflexivity | apply List.length_map].
        -- rewrite lookup_insert_ne in Hc by congruence. now left.
  - unfold dt_isocalendar_week in E.
    destruct (is_datetime64 fecha); [|discriminate E].
    rsimpl_in E. rewrite lookup_insert_ne in E by discriminate.
    destruct (raw !! "loc_vi") as [l0|] eqn:Hl.
    + inversion E; subst df. split.
      * unfold has_derived_columns.
        rewrite lookup_insert_eq, !lookup_insert_ne, Hl, Hf by discriminate.
        repeat split; eauto.
      * intros c s Hc. destruct (decide (c = "week")) as [->|Hne].
        -- rewrite lookup_insert_eq in Hc. inversion Hc; subst s.
           right. left. split; [reflexivity | apply List.length_map].
        -- rewrite lookup_insert_ne in Hc by congruence. now left.
    + unfold getitem in E. rewrite lookup_insert_ne in E by discriminate.
      destruct (raw !! "is_home") as [home|] eqn:Hh; [|discriminate E].
      rsimpl_in E. inversion E; subst df. split.
      * unfold has_derived_columns.
        rewrite lookup_insert_eq, lookup_insert_ne, lookup_insert_eq,
          !lookup_insert_ne, Hf by discriminate.
        repeat split; eauto.
      * intros c s Hc. destruct (decide (c = "loc_vi")) as [->|Hne].
        -- rewrite lookup_insert_eq in Hc. inversion Hc; subst s.
           right. right. split; [reflexivity|]. exists home.
           split; [reflexivity | apply List.length_map].
        -- rewrite lookup_insert_ne in Hc by congruence.
           destruct (decide (c = "week")) as [->|Hne'].
           ++ rewrite lookup_insert_eq in Hc. inversion Hc; subst s.
              right. left. split; [reflexivity | apply List.length_map].
           ++ rewrite lookup_insert_ne in Hc by congruence. now left.
Qed.

Lemma load_data_body_complete (fs : Files) (path : string) (df : Frame) :
  fs !! path = Some df -> has_derived_columns df ->
  load_data_body fs path = Ok df.
Proof.
  intros Hfs ([w Hw] & [l Hl] & [fecha Hf]).
  rewrite (load_data_body_read fs path df fecha Hfs Hf), Hw. rsimpl.
  now rewrite Hl.
Qed.

(** X16.  A call of [load_data] that raises stores nothing and changes
    nothing, so the load is tried again: once the file can be loaded, the
    next call with the path reads it, returns its table and stores it. *)
Theorem failed_load_is_retried (path : string) (w w' : World) (e : Exn) :
  load_data path w = (Raise e, w') ->
  w' = w
  /\ cache w !! path = None
  /\ forall fs df,
       load_data_body fs path = Ok df ->
       load_data path {| files := fs; cache := cache w' |}
       = (Ok df, {| files := fs; cache := <[path := df]> (cache w) |}).
Proof.
  unfold load_data, cache_data.
  destruct (cache w !! path) as [df0|] eqn:Hc; [intros E; discriminate E|].
  destruct (load_data_body (files w) path) as [df1|e1]; intros E; inversion E; subst.
  split; [reflexivity|]. split; [reflexivity|].
  intros fs df Hbody. cbn [files cache]. now rewrite Hc, Hbody.
Qed.

Lemma failed_load_is_retried_witness :
  load_data "processed_data.csv" world_without_file
  = (Raise (FileNotFoundError "processed_data.csv"), world_without_file)
  /\ fst (load_data "processed_data.csv"
            {| files := sample_files; cache := cache world_without_file |})
     = Ok loaded_frame.
Proof.
  assert (E : load_data "processed_data.csv" world_without_file
              = (Raise (FileNotFoundError "processed_data.csv"), world_without_file))
    by reflexivity.
  split; [exact E|].
  destruct (failed_load_is_retried _ _ _ _ E) as (_ & _ & Hretry).
  rewrite (Hretry sample_files loaded_frame); [reflexivity|].
  vm_compute. reflexivity.
Defined.

(** X17.  Whatever [load_data] returns has the [week], [loc_vi] and
    [fecha] columns: starting from an empty cache, after any changes of
    the files and any calls, a table that a call returns, read or cached,
    has the three. *)
Theorem loaded_tables_have_derived_columns (w0 w w' : World) (path : string)
    (df : Frame) :
  cache w0 = ∅ ->
  later w0 w ->
  load_data path w = (Ok df, w') ->
  has_derived_columns df.
Proof.
  intros Hempty Hlater.
  assert (Hinv : forall p d, cache w !! p = Some d -> has_derived_columns d).
  { assert (H0 : forall p d, cache w0 !! p = Some d -> has_derived_columns d)
      by (intros p d; rewrite Hempty, lookup_empty; discriminate).
    clear Hempty. induction Hlater as [w|w1 w2 w3 Hstep _ IH]; [exact H0|].
    apply IH. destruct Hstep as [w fs|w q r w2 Eq]; [exact H0|].
    unfold load_data, cache_data in Eq.
    destruct (cache w !! q) as [d0|] eqn:Hq; [inversion Eq; subst; exact H0|].
    destruct (load_data_body (files w) q) as [d1|e1] eqn:Hbody;
      inversion Eq; subst; [|exact H0].
    intros p d. cbn [cache]. destruct (decide (q = p)) as [->|Hne].
    - rewrite lookup_insert_eq. intros Hd; inversion Hd; subst.
      destruct (load_data_body_Ok_inv _ _ _ Hbody) as (raw & fecha & _ & _ & Hd' & _).
      exact Hd'.
    - rewrite lookup_insert_ne by exact Hne. apply H0. }
  unfold load_data, cache_data.
  destruct (cache w !! path) as [d0|] eqn:Hc.
  - intros E; inversion E; subst. eapply Hinv, Hc.
  - destruct (load_data_body (files w) path) as [d1|e1] eqn:Hbody;
      intros E; inversion E; subst.
    destruct (load_data_body_Ok_inv _ _ _ Hbody) as (raw & fecha & _ & _ & Hd' & _).
    exact Hd'.
Qed.

Lemma loaded_tables_have_derived_columns_witness :
  has_derived_columns loaded_frame.
Proof.
  apply (loaded_tables_have_derived_columns world0 world2 world2
           "processed_data.csv" loaded_frame).
  - reflexivity.
  - eapply later_step; [apply (step_load world0 "processed_data.csv"
                                 (Ok loaded_frame) world1); vm_compute; reflexivity|].
    eapply later_step; [apply (step_files world1 ∅) | apply later_now].
  - vm_compute. reflexivity.
Defined.

(** X18.  Loading a file that holds a table the loader returned gives
    that table back: the loader changes nothing in a table that has its
    columns. *)
Theorem loader_fixes_its_output (fs fs' : Files) (path path' : string) (df : Frame) :
  load_data_body fs path = Ok df ->
  fs' !! path' = Some df ->
  load_data_body fs' path' = Ok df.
Proof.
  intros E Hfs'.
  destruct (load_data_body_Ok_inv _ _ _ E) as (raw & fecha & _ & _ & Hd & _).
  now apply load_data_body_complete.
Qed.

Lemma loader_fixes_its_output_witness :
  load_data_body (<["saved.csv" := loaded_frame]> ∅) "saved.csv" = Ok loaded_frame.
Proof.
  apply (loader_fixes_its_output sample_files _ "processed_data.csv").
  - vm_compute. reflexivity.
  - reflexivity.
Defined.

(** X19.  The loader keeps the table rectangular: when every column of
    the file has n cells, every column of the table returned, the derived
    ones included, has n cells. *)
Theorem loader_keeps_rectangular (fs : Files) (path : string) (raw df : Frame)
    (n : nat) :
  fs !! path = Some raw ->
  rectangular n raw ->
  load_data_body fs path = Ok df ->
  rectangular n df.
Proof.
  intros Hfs Hrect E c s Hc.
  destruct (load_data_body_Ok_inv _ _ _ E) as (raw' & fecha & Hfs' & Hf & _ & Hcols).
  rewrite Hfs in Hfs'. inversion Hfs'; subst raw'.
  destruct (Hcols c s Hc) as [Hraw|[[_ Hlen]|[_ (home & Hh & Hlen)]]].
  - eapply Hrect, Hraw.
  - rewrite Hlen. eapply Hrect, Hf.
  - rewrite Hlen. eapply Hrect, Hh.
Qed.

Lemma loader_keeps_rectangular_witness : rectangular 3 loaded_frame.
Proof.
  apply (loader_keeps_rectangular sample_files "processed_data.csv" raw_frame).
  - reflexivity.
  - intros c s Hc. unfold raw_frame in Hc.
    destruct (decide (c = "fecha")) as [->|H1];
      [rewrite lookup_insert_eq in Hc; now inversion Hc|].
    rewrite lookup_insert_ne in Hc by congruence.
    destruct (decide (c = "is_home")) as [->|H2];
      [rewrite lookup_insert_eq in Hc; now inversion Hc|].
    rewrite lookup_insert_ne in Hc by congruence.
    destruct (decide (c = "sacks_permitidos")) as [->|H3];
      [rewrite lookup_insert_eq in Hc; now inversion Hc|].
    rewrite lookup_insert_ne in Hc by congruence.
    rewrite lookup_empty in Hc. discriminate Hc.
  - vm_compute. reflexivity.
Defined.

End DataMore.

(* ================================================================== *)
(** * Further properties of the page *)
(* ================================================================== *)

Module PageMore.
Import Main PageEvents.

(** On a table with rows the margin builder returns. *)
Lemma scatter_sacks_vs_margin_returns (df : Table) :
  df <> [] -> exists fig, Plots.scatter_sacks_vs_margin df = Ok fig.
Proof.
  intros Hne. unfold Plots.scatter_sacks_vs_margin.
  destruct df as [|r df]; [contradiction|]. cbn [Pandas.empty]. now eexists.
Qed.

Section PageFacts.
Context (L : Heatmap.StatsLib) {SV : SortValues}.
Context (df_raw : Table) (C : Criteria) (method : Heatmap.Method).

Let table_f := df_f df_raw C.
Let table_o := df_o (df_f df_raw C) (c_resultado C).
Let several := c_all_teams C || (1 <? List.length (team_sel df_raw C))%nat.

(** The page up to the heatmap call, when the outcome table has rows. *)
Lemma page_to_heatmap_nonempty :
  table_o <> [] ->
  page_to_heatmap df_raw C method
  = [St_title "NFL Sacks Analysis – margen ≥ 8 pts"; St_write;
     St_subheader "1 · Sacks promedio en derrotas";
     Call_bar_avg_sacks_losses table_f;
     St_plotly_chart (BarChart (Plots.bar_avg_sacks_losses table_f));
     St_subheader "2 · Sacks vs puntos anotados";
     (if several
      then Call_scatter_sacks_vs_points table_o "team_abbr" "phase" "overall"
      else Call_scatter_sacks_vs_points table_o "phase" "resultado" "trace");
     St_plotly_chart
       (ScatterChart
          (if several
           then Plots.scatter_sacks_vs_points table_o "team_abbr" "phase"
                  (Plots.color_discrete_sequence "px.colors.qualitative.Safe")
                  "overall"
           else Plots.scatter_sacks_vs_points table_o "phase" "resultado"
                  (Plots.color_discrete_map
                     [("regular", Plots.PALETTE_primary);
                      ("playoff", Plots.PALETTE_secondary)])
                  "trace"));
     St_subheader "3 · Distribución de sacks";
     Call_box_sacks_distribution table_o several;
     St_plotly_chart (BoxChart (Plots.box_sacks_distribution table_o several));
     St_subheader "4 · Matriz de correlaciones";
     Call_corr_heatmap table_f Heatmap.num_cols method].
Proof.
  subst table_f table_o several. intros Hne. unfold page_to_heatmap. cbv zeta.
  destruct (df_o (df_f df_raw C) (c_resultado C)) as [|r rest]; [contradiction|].
  cbn [Pandas.empty negb].
  now destruct (c_all_teams C || (1 <? List.length (team_sel df_raw C))%nat).
Qed.

(** The calls of the page up to the heatmap call, whatever the tables. *)
Lemma page_to_heatmap_calls :
  Call_bar_avg_sacks_losses table_f ∈ page_to_heatmap df_raw C method
  /\ Call_box_sacks_distribution table_o several ∈ page_to_heatmap df_raw C method
  /\ (forall rows, St_dataframe rows ∉ page_to_heatmap df_raw C method)
  /\ (forall d, Call_scatter_sacks_vs_margin d ∉ page_to_heatmap df_raw C method).
Proof.
  subst table_f table_o several. unfold page_to_heatmap. cbv zeta.
  set (table_o := df_o (df_f df_raw C) (c_resultado C)).
  set (several := c_all_teams C || (1 <? List.length (team_sel df_raw C))%nat).
  split; [|split; [|split]].
  - do 3 apply list_elem_of_further. apply list_elem_of_here.
  - rewrite app_assoc. apply elem_of_app. right.
    apply list_elem_of_further, list_elem_of_here.
  - intros rows Hin.
    apply elem_of_app in Hin as [Hin|Hin]; [|apply elem_of_app in Hin as [Hin|Hin]].
    + repeat (apply elem_of_cons in Hin as [Hin|Hin]; [discriminate|]). inversion Hin.
    + destruct (negb (Pandas.empty table_o)), several;
        repeat (apply elem_of_cons in Hin as [Hin|Hin]; [discriminate|]); inversion Hin.
    + repeat (apply elem_of_cons in Hin as [Hin|Hin]; [discriminate|]). inversion Hin.
  - intros d Hin.
    apply elem_of_app in Hin as [Hin|Hin]; [|apply elem_of_app in Hin as [Hin|Hin]].
    + repeat (apply elem_of_cons in Hin as [Hin|Hin]; [discriminate|]). inversion Hin.
    + destruct (negb (Pandas.empty table_o)), several;
        repeat (apply elem_of_cons in Hin as [Hin|Hin]; [discriminate|]); inversion Hin.
    + repeat (apply elem_of_cons in Hin as [Hin|Hin]; [discriminate|]). inversion Hin.
Qed.

(** X20.  An exception of the heatmap builder ends the page there: the
    first three charts have been built (the bar and the box builders were
    called), the run ends with that exception, and neither the top-10
    table nor the sacks-vs-margin scatter is produced. *)
Theorem heatmap_failure_ends_page (e : Exn) :
  Heatmap.corr_heatmap L (df_f df_raw C) Heatmap.num_cols method = Raise e ->
  let trace := fst (page L df_raw C method) in
  snd (page L df_raw C method) = Raise e
  /\ Call_bar_avg_sacks_losses table_f ∈ trace
  /\ Call_box_sacks_distribution table_o several ∈ trace
  /\ (forall rows, St_dataframe rows ∉ trace)
  /\ (forall d, Call_scatter_sacks_vs_margin d ∉ trace).
Proof.
  intros E trace. subst trace. unfold page. rewrite E. cbn [fst snd].
  split; [reflexivity|]. apply page_to_heatmap_calls.
Qed.

(** X21.  How the charts are drawn depends on the team selection alone:
    with the all-teams box ticked or two or more teams chosen, the points
    scatter is coloured by team with one overall trend line and the box
    plot is grouped by team; with the box not ticked and at most one team
    chosen (none included, although the filter then keeps every team), the
    scatter is coloured by phase with a trend line per trace and the box
    plot is grouped by outcome. *)
Theorem chart_mode_follows_team_selection :
  table_o <> [] ->
  let trace := fst (page L df_raw C method) in
  ((c_all_teams C = true \/ (2 <= List.length (c_teams C))%nat) ->
     Call_scatter_sacks_vs_points table_o "team_abbr" "phase" "overall" ∈ trace
     /\ Call_box_sacks_distribution table_o true ∈ trace)
  /\ (c_all_teams C = false -> (List.length (c_teams C) <= 1)%nat ->
        Call_scatter_sacks_vs_points table_o "phase" "resultado" "trace" ∈ trace
        /\ Call_box_sacks_distribution table_o false ∈ trace).
Proof.
  intros Hne trace.
  assert (Hpre : forall ev, ev ∈ page_to_heatmap df_raw C method -> ev ∈ trace).
  { intros ev Hev. subst trace. unfold page.
    destruct (Heatmap.corr_heatmap L (df_f df_raw C) Heatmap.num_cols method);
      [|exact Hev].
    cbv zeta.
    destruct (Plots.scatter_sacks_vs_margin (df_o (df_f df_raw C) (c_resultado C)));
      cbn [fst]; rewrite !elem_of_app; tauto. }
  rewrite (page_to_heatmap_nonempty Hne) in Hpre.
  split.
  - intros Hsel.
    assert (Hs : several = true).
    { subst several. unfold team_sel. destruct Hsel as [Hall|Hlen].
      - now rewrite Hall.
      - destruct (c_all_teams C); [reflexivity|]. simpl. apply Nat.ltb_lt. lia. }
    rewrite Hs in Hpre. split; apply Hpre.
    + do 6 apply list_elem_of_further. apply list_elem_of_here.
    + do 9 apply list_elem_of_further. apply list_elem_of_here.
  - intros Hall Hlen.
    assert (Hs : several = false).
    { subst several. unfold team_sel. rewrite Hall. simpl. apply Nat.ltb_ge. lia. }
    rewrite Hs in Hpre. split; apply Hpre.
    + do 6 apply list_elem_of_further. apply list_elem_of_here.
    + do 9 apply list_elem_of_further. apply list_elem_of_here.
Qed.

(** X22.  Which table each chart is built from: when the outcome table has
    rows and the heatmap builder returns, the run ends normally, no notice
    is shown, and the builders are called in this order and on these
    tables: the bar chart on the filtered table, the points scatter and
    the box plot on the outcome table, the heatmap on the filtered table,
    the margin scatter on the outcome table; the one table on the page is
    the top 10 of the filtered table. *)
Theorem page_builds_charts_from_tables (fig : Heatmap.Figure) :
  table_o <> [] ->
  Heatmap.corr_heatmap L (df_f df_raw C) Heatmap.num_cols method = Ok fig ->
  let trace := fst (page L df_raw C method) in
  snd (page L df_raw C method) = Ok ()
  /\ List.filter is_info trace = []
  /\ List.filter is_builder_call trace
     = [Call_bar_avg_sacks_losses table_f;
        (if several
         then Call_scatter_sacks_vs_points table_o "team_abbr" "phase" "overall"
         else Call_scatter_sacks_vs_points table_o "phase" "resultado" "trace");
        Call_box_sacks_distribution table_o several;
        Call_corr_heatmap table_f Heatmap.num_cols method;
        Call_scatter_sacks_vs_margin table_o]
  /\ List.filter is_dataframe trace = [St_dataframe (top10_table table_f)].
Proof.
  intros Hne Hfig trace. subst trace. unfold page. rewrite Hfig. cbv zeta.
  destruct (scatter_sacks_vs_margin_returns _ Hne) as [fig6 E6].
  unfold table_o in E6. rewrite E6. cbn [fst snd].
  rewrite (page_to_heatmap_nonempty Hne). unfold page_after_heatmap.
  subst table_f table_o several. cbv zeta.
  split; [reflexivity|].
  destruct (c_all_teams C || (1 <? List.length (team_sel df_raw C))%nat);
    repeat split; reflexivity.
Qed.
End PageFacts.

Lemma heatmap_failure_ends_page_witness :
  snd (page failing_lib (SV := merge_sort_values) sample_table sample_criteria
         Heatmap.pearson)
  = Raise (ValueError "The condensed distance matrix must contain only finite values.")
  /\ forall rows,
       St_dataframe rows
       ∉ fst (page failing_lib (SV := merge_sort_values) sample_table sample_criteria
                Heatmap.pearson).
Proof.
  destruct (heatmap_failure_ends_page failing_lib (SV := merge_sort_values)
              sample_table sample_criteria Heatmap.pearson
              (ValueError "The condensed distance matrix must contain only finite values."))
    as (Hend & _ & _ & Hno & _).
  - reflexivity.
  - split; [exact Hend | exact Hno].
Defined.

Lemma chart_mode_follows_team_selection_witness :
  Call_box_sacks_distribution (df_o (df_f sample_table no_team_criteria) "all") false
  ∈ fst (page Heatmap.sample_lib (SV := merge_sort_values) sample_table
           no_team_criteria Heatmap.pearson).
Proof.
  destruct (chart_mode_follows_team_selection Heatmap.sample_lib
              (SV := merge_sort_values) sample_table no_team_criteria Heatmap.pearson)
    as [_ Hone].
  - discriminate.
  - apply Hone; [reflexivity | simpl; lia].
Defined.

Lemma page_builds_charts_from_tables_witness :
  snd (page Heatmap.sample_lib (SV := merge_sort_values) sample_table
         sample_criteria Heatmap.pearson) = Ok ()
  /\ List.filter is_info
       (fst (page Heatmap.sample_lib (SV := merge_sort_values) sample_table
               sample_criteria Heatmap.pearson)) = [].
Proof.
  destruct (Heatmap.corr_heatmap Heatmap.sample_lib (df_f sample_table sample_criteria)
              Heatmap.num_cols Heatmap.pearson) as [fig|e] eqn:E;
    [|vm_compute in E; discriminate E].
  destruct (page_builds_charts_from_tables Heatmap.sample_lib
              (SV := merge_sort_values) sample_table sample_criteria Heatmap.pearson
              fig) as (Hend & Hinfo & _).
  - discriminate.
  - exact E.
  - split; [exact Hend | exact Hinfo].
Defined.

End PageMore.

(* ================================================================== *)
(** * The derived week *)
(* ================================================================== *)

Module CalendarFacts.
Import IsoCalendar Calendar.

Lemma leap_day_range (y : Z) : 0 <= leap_day y <= 1.
Proof. unfold leap_day. destruct (is_leap y); lia. Qed.

Lemma days_before_year_step (y : Z) :
  days_before_year (y + 1) = days_before_year y + 365 + leap_day y.
Proof.
  unfold days_before_year, leap_day, is_leap.
  replace (y + 1 - 1) with y by lia.
  destruct (y mod 4 =? 0)%Z eqn:E4; destruct (y mod 100 =? 0)%Z eqn:E100;
    destruct (y mod 400 =? 0)%Z eqn:E400; simpl;
    rewrite ?Z.eqb_eq, ?Z.eqb_neq in *;
    Z.div_mod_to_equations; lia.
Qed.

Lemma first_day (y : Z) : ymd2ord y 1 1 = days_before_year y + 1.
Proof. unfold ymd2ord, days_before_month. simpl. lia. Qed.

(** Week 1 starts on a Monday at most three days from 1 January. *)
Lemma isoweek1monday_spec (y : Z) :
  days_before_year y - 2 <= isoweek1monday y <= days_before_year y + 4
  /\ isoweek1monday y mod 7 = 1.
Proof.
  unfold isoweek1monday. rewrite first_day.
  set (F := days_before_year y + 1).
  destruct (3 <? (F + 6) mod 7)%Z eqn:E;
    rewrite ?Z.ltb_lt, ?Z.ltb_ge in E; Z.div_mod_to_equations; lia.
Qed.

(** An ISO year has 52 or 53 weeks. *)
Lemma isoweek1monday_step (y : Z) :
  364 <= isoweek1monday (y + 1) - isoweek1monday y <= 371.
Proof.
  pose proof (isoweek1monday_spec y) as [Hb Hm].
  pose proof (isoweek1monday_spec (y + 1)) as [Hb' Hm'].
  rewrite days_before_year_step in Hb'.
  pose proof (leap_day_range y).
  Z.div_mod_to_equations. lia.
Qed.

Ltac eval_nth :=
  repeat match goal with
  | |- context [nth ?n ?l ?d] =>
      let v := eval vm_compute in (nth n l d) in change (nth n l d) with v
  | H : context [nth ?n ?l ?d] |- _ =>
      let v := eval vm_compute in (nth n l d) in change (nth n l d) with v in H
  end.

Lemma day_of_year_bounds (y m d : Z) :
  1 <= m <= 12 -> 1 <= d <= days_in_month y m ->
  1 <= days_before_month y m + d <= 365 + leap_day y.
Proof.
  intros Hm Hd. unfold days_before_month, days_in_month, leap_day in *.
  assert (m = 1 \/ m = 2 \/ m = 3 \/ m = 4 \/ m = 5 \/ m = 6 \/ m = 7 \/ m = 8
          \/ m = 9 \/ m = 10 \/ m = 11 \/ m = 12) as Hcases by lia.
  destruct (is_leap y);
    destruct Hcases as [->|[->|[->|[->|[->|[->|[->|[->|[->|[->|[->| ->]]]]]]]]]]];
    eval_nth; simpl (_ <? _)%Z in *; simpl (_ =? _)%Z in *; simpl (_ && _) in *;
    cbv beta iota in *; lia.
Qed.

(** X23.  The week derived from a date of the calendar is a week number:
    it lies between 1 and 53; and 4 January of any year is in week 1, as
    ISO 8601 defines week 1. *)
Theorem derived_week_in_range :
  (forall d, valid_date d -> 1 <= week d <= 53)
  /\ (forall y, week (mkDate y 1 4) = 1).
Proof.
  split.
  - intros d [Hm Hd]. unfold week.
    pose proof (day_of_year_bounds (d_year d) (d_month d) (d_day d) Hm Hd) as Hdoy.
    unfold ymd2ord.
    set (y := d_year d) in *.
    set (doy := days_before_month y (d_month d) + d_day d) in *.
    replace (days_before_year y + days_before_month y (d_month d) + d_day d)
      with (days_before_year y + doy) by (subst doy; lia).
    pose proof (leap_day_range y) as Hleap.
    pose proof (isoweek1monday_spec y) as [Hb Hmod].
    pose proof (isoweek1monday_step y) as Hnext.
    pose proof (isoweek1monday_step (y - 1)) as Hprev.
    replace (y - 1 + 1) with y in Hprev by lia.
    pose proof (isoweek1monday_spec (y - 1)) as [Hb1 _].
    assert (Hdby : days_before_year y
                   = days_before_year (y - 1) + 365 + leap_day (y - 1)).
    { rewrite <- days_before_year_step. f_equal. lia. }
    pose proof (leap_day_range (y - 1)) as Hleap1.
    destruct ((days_before_year y + doy - isoweek1monday y) / 7 <? 0)%Z eqn:E1.
    + apply Z.ltb_lt in E1. Z.div_mod_to_equations. lia.
    + apply Z.ltb_ge in E1.
      destruct (52 <=? (days_before_year y + doy - isoweek1monday y) / 7)%Z eqn:E2;
        destruct (isoweek1monday (y + 1) <=? days_before_year y + doy)%Z eqn:E3;
        simpl; rewrite ?Z.leb_le, ?Z.leb_gt in *;
        try lia; Z.div_mod_to_equations; lia.
  - intros y. unfold week. cbn [d_year d_month d_day].
    assert (E : ymd2ord y 1 4 = days_before_year y + 4)
      by (unfold ymd2ord, days_before_month; simpl; lia).
    rewrite E.
    pose proof (isoweek1monday_spec y) as [Hb Hmod].
    assert (Hw : (days_before_year y + 4 - isoweek1monday y) / 7 = 0)
      by (Z.div_mod_to_equations; lia).
    rewrite Hw. reflexivity.
Qed.

Lemma derived_week_in_range_witness :
  1 <= week (mkDate 2021 1 3) <= 53 /\ week (mkDate 2024 1 4) = 1.
Proof.
  split.
  - apply derived_week_in_range. split; vm_compute; split; discriminate.
  - apply derived_week_in_range.
Defined.

End CalendarFacts.
